(** * Fairness and assignment engine of the JBG truck platform

    A shallow embedding of [fairness.ts] (quota metrics, need ranking,
    candidate ranking, assignment validation) and of the second copy of
    [calculateFairnessMetrics] that lives next to the seed fleet in
    [initialTrucks.ts]; then of the callers around them: the dashboard,
    the commit of a schedule and the creation of loads in [App.tsx], the
    truck import, the seed fleet and the grouping of loads by region.

    Modelling choices.
    - [weeklyLoads] and [minWeeklyLoads] are counts (the type declaration
      comments them as "Current week's load count" and "Quota"): they are
      integers, [Z].  On integers the JavaScript comparisons [<], [===],
      [>] and the sign of the subtraction used by the sort comparators
      are exact.  The value of a sum or difference of counts is the
      program's as long as the operands and the result are at most [2^53]
      in absolute value (beyond, binary64 rounds): the theorems that
      depend on such a value, not only on an ordering, state that range.
    - [capacityTons] and [sizeTons] are finite numbers compared with [<=]
      and [>] only: rationals, [Q], with exact comparison.
    - array lengths are [nat].
    - the two derived fields [fairnessPercentage] and
      [averageLoadsPerTruck] are computed by the source in IEEE-754
      binary64 arithmetic (division, multiplication, [Math.round]); they are
      modelled with Rocq's primitive binary64 floats, so that [0/0 = NaN]
      and the rounding of each operation are those of the program.
    - [Array.prototype.filter], [find] and [reduce] are the list functions
      [filter], [find] and [fold_left]; [Array.prototype.sort] is a stable
      sort driven by the comparator's sign, and [sort_unique] shows that
      for the comparators of this module its result does not depend on the
      algorithm.
    - error messages are strings; the conversion of a number of tons to
      text inside the capacity message is a parameter of the validation. *)

From Stdlib Require Import String Ascii DecimalString DecimalNat.
From Stdlib Require Import ZArith QArith Floats Bool Lia.
From Stdlib Require Import List Permutation Sorted.
Import ListNotations.

(** ** JavaScript numbers *)

Module Number.

(** The binary64 value nearest to an integer (round to nearest, ties to
    even); exact below [2^53]. *)
Definition ofZ (z : Z) : float :=
  SF2Prim (binary_normalize prec emax z 0 false).

Definition ofNat (n : nat) : float := ofZ (Z.of_nat n).

End Number.

Module Math.

(** [Math.round]: the integer nearest to [x], ties towards +infinity;
    NaN, the infinities and the zeros are returned unchanged, and a
    negative argument that rounds to zero gives [-0].  The finite case is
    computed exactly on the mantissa and exponent of [x]. *)
Definition round (x : float) : float :=
  match Prim2SF x with
  | S754_finite s m e =>
      if (0 <=? e)%Z then x
      else
        let sm := if s then Z.neg m else Z.pos m in
        let r := ((2 * sm + 2 ^ (- e)) / 2 ^ (1 - e))%Z in
        if (r =? 0)%Z then (if s then (-0)%float else 0%float)
        else Number.ofZ r
  | _ => x
  end.

(** [Math.max] on integers. *)
Definition max (a b : Z) : Z := Z.max a b.

End Math.

(** ** Data model ([types/index.ts]) *)

Inductive TruckSize := small | medium | large.
Inductive LoadPriority := high | normal | low.
Inductive LoadStatus := unassigned | assigned | in_transit | delivered.

Module Truck.
Record t := mk {
  id : string;
  truckId : string;
  contractorName : string;
  size : TruckSize;
  capacityTons : Q;
  weeklyLoads : Z;
  minWeeklyLoads : Z;
  active : bool
}.
End Truck.

Module Load.
Record t := mk {
  id : string;
  loadId : string;
  sizeTons : Q;
  destination : string;
  origin : string;
  priority : LoadPriority;
  deadline : string;
  status : LoadStatus;
  assignedTruckId : option string
}.
End Load.

Record FairnessMetrics := {
  totalTrucks : nat;
  trucksAtQuota : nat;
  trucksBelowQuota : nat;
  trucksAboveQuota : nat;
  fairnessPercentage : float;
  averageLoadsPerTruck : float
}.

(** The three quota tests of the source, on one truck. *)
Definition belowQuotaP (t : Truck.t) : bool :=
  (Truck.weeklyLoads t <? Truck.minWeeklyLoads t)%Z.
Definition atQuotaP (t : Truck.t) : bool :=
  (Truck.weeklyLoads t =? Truck.minWeeklyLoads t)%Z.
Definition aboveQuotaP (t : Truck.t) : bool :=
  (Truck.weeklyLoads t >? Truck.minWeeklyLoads t)%Z.

(** An assignment proposal: the [{ loadId, truckId }] objects of the batch. *)
Module Assignment.
Record t := mk {
  loadId : string;
  truckId : string
}.
End Assignment.

Record AssignmentValidation := {
  valid : bool;
  errors : list string
}.

(** A [LoadStatus] is its own string in the source. *)
Definition LoadStatus_toString (st : LoadStatus) : string :=
  match st with
  | unassigned => "unassigned"
  | assigned => "assigned"
  | in_transit => "in_transit"
  | delivered => "delivered"
  end.

Definition LoadStatus_eqb (a b : LoadStatus) : bool :=
  match a, b with
  | unassigned, unassigned | assigned, assigned
  | in_transit, in_transit | delivered, delivered => true
  | _, _ => false
  end.

(** [a > b] on tons. *)
Definition Qgt_bool (a b : Q) : bool :=
  match (a ?= b)%Q with Gt => true | _ => false end.

(** ** [Array.prototype.sort]

    The built-in is stable, and a comparator result that is positive moves
    the first argument behind the second.  It is modelled by insertion from
    the right: every element is inserted in front of the part of the array
    that followed it, and passes exactly the elements it must follow. *)
Module Array.
Section Sort.
Context {A : Type} (compareFn : A -> A -> Z).

Fixpoint insert (x : A) (l : list A) : list A :=
  match l with
  | [] => [x]
  | y :: ys =>
      if (compareFn x y <=? 0)%Z then x :: y :: ys else y :: insert x ys
  end.

Definition sort (l : list A) : list A := fold_right insert [] l.

End Sort.
End Array.

(** ** [fairness.ts]

    In [calculateFairnessMetrics] the sum of [reduce] is accumulated in
    binary64, left to right, as the program does. *)

Module Fairness.

Definition calculateFairnessMetrics (trucks : list Truck.t)
  : FairnessMetrics :=
  let activeTrucks := filter Truck.active trucks in
  if (length activeTrucks =? 0)%nat then
    {| totalTrucks := 0;
       trucksAtQuota := 0;
       trucksBelowQuota := 0;
       trucksAboveQuota := 0;
       fairnessPercentage := 0%float;
       averageLoadsPerTruck := 0%float |}
  else
    let belowQuota := filter belowQuotaP activeTrucks in
    let atQuota := filter atQuotaP activeTrucks in
    let aboveQuota := filter aboveQuotaP activeTrucks in
    let totalLoads :=
      fold_left (fun sum t => (sum + Number.ofZ (Truck.weeklyLoads t))%float)
                activeTrucks 0%float in
    {| totalTrucks := length activeTrucks;
       trucksAtQuota := length atQuota;
       trucksBelowQuota := length belowQuota;
       trucksAboveQuota := length aboveQuota;
       fairnessPercentage :=
         Math.round
           ((Number.ofNat (length atQuota + length aboveQuota)
             / Number.ofNat (length activeTrucks)) * 100)%float;
       averageLoadsPerTruck :=
         (Math.round
            ((totalLoads / Number.ofNat (length activeTrucks)) * 10)
          / 10)%float |}.

(** [trucks.filter(...).sort((a, b) => a.weeklyLoads - b.weeklyLoads)] *)
Definition getTrucksBelowQuota (trucks : list Truck.t) : list Truck.t :=
  Array.sort
    (fun a b => (Truck.weeklyLoads a - Truck.weeklyLoads b)%Z)
    (filter (fun t => Truck.active t && belowQuotaP t) trucks).

Definition getUnassignedLoads (loads : list Load.t) : list Load.t :=
  filter (fun l => LoadStatus_eqb (Load.status l) unassigned) loads.

Definition getLoadsNeededForQuota (truck : Truck.t) : Z :=
  if negb (Truck.active truck) then 0%Z
  else Math.max 0 (Truck.minWeeklyLoads truck - Truck.weeklyLoads truck).

Definition canLoadFitInTruck (load : Load.t) (truck : Truck.t) : bool :=
  Truck.active truck && Qle_bool (Load.sizeTons load) (Truck.capacityTons truck).

(** The comparator of [findSuitableTrucks]: higher need first, then fewer
    weekly loads first. *)
Definition suitableCompare (a b : Truck.t) : Z :=
  let aNeeds := getLoadsNeededForQuota a in
  let bNeeds := getLoadsNeededForQuota b in
  if negb (aNeeds =? bNeeds)%Z then (bNeeds - aNeeds)%Z
  else (Truck.weeklyLoads a - Truck.weeklyLoads b)%Z.

Definition findSuitableTrucks (load : Load.t) (trucks : list Truck.t)
  : list Truck.t :=
  Array.sort suitableCompare (filter (fun t => canLoadFitInTruck load t) trucks).

Section Validation.

(** [Number.prototype.toString], as used by the template literal of the
    capacity message; a built-in, taken as a parameter. *)
Variable numberToString : Q -> string.

Definition loadNotFound (loadId : string) : string :=
  "Load " ++ loadId ++ " not found".

Definition truckNotFound (truckId : string) : string :=
  "Truck " ++ truckId ++ " not found".

Definition truckInactive (truckId : string) : string :=
  "Truck " ++ truckId ++ " is inactive".

Definition capacityExceeded (loadId : string) (sizeTons : Q)
           (truckId : string) (capacityTons : Q) : string :=
  "Load " ++ loadId ++ " (" ++ numberToString sizeTons ++ "T) exceeds truck "
    ++ truckId ++ " capacity (" ++ numberToString capacityTons ++ "T)".

Definition loadAlready (loadId : string) (st : LoadStatus) : string :=
  "Load " ++ loadId ++ " is already " ++ LoadStatus_toString st.

(** One iteration of the [for ... of] loop: the error list after the
    iteration, given the error list before it.  [push] appends at the end;
    the two [continue] statements are the two [None] branches. *)
Definition validateStep (trucks : list Truck.t) (loads : list Load.t)
           (errors : list string) (assignment : Assignment.t) : list string :=
  let load :=
    find (fun l => (Load.loadId l =? Assignment.loadId assignment)%string) loads in
  let truck :=
    find (fun t => (Truck.truckId t =? Assignment.truckId assignment)%string)
         trucks in
  match load with
  | None => (errors ++ [loadNotFound (Assignment.loadId assignment)])%list
  | Some load =>
      match truck with
      | None =>
          (errors ++ [truckNotFound (Assignment.truckId assignment)])%list
      | Some truck =>
          let errors :=
            if negb (Truck.active truck)
            then (errors ++ [truckInactive (Assignment.truckId assignment)])%list
            else errors in
          let errors :=
            if Qgt_bool (Load.sizeTons load) (Truck.capacityTons truck)
            then (errors ++
                  [capacityExceeded (Assignment.loadId assignment)
                     (Load.sizeTons load) (Assignment.truckId assignment)
                     (Truck.capacityTons truck)])%list
            else errors in
          let errors :=
            if negb (LoadStatus_eqb (Load.status load) unassigned)
            then (errors ++
                  [loadAlready (Assignment.loadId assignment)
                     (Load.status load)])%list
            else errors in
          errors
      end
  end.

Definition validateAssignments (assignments : list Assignment.t)
           (trucks : list Truck.t) (loads : list Load.t)
  : AssignmentValidation :=
  let errors := fold_left (validateStep trucks loads) assignments [] in
  {| valid := (length errors =? 0)%nat; errors := errors |}.

(** The errors one pair adds: one iteration started from the empty list. *)
Definition pairErrors (trucks : list Truck.t) (loads : list Load.t)
           (assignment : Assignment.t) : list string :=
  validateStep trucks loads [] assignment.

End Validation.

End Fairness.

(** ** [initialTrucks.ts]: the copy without the empty-fleet guard *)

Module InitialTrucks.

Definition calculateFairnessMetrics (trucks : list Truck.t)
  : FairnessMetrics :=
  let activeTrucks := filter Truck.active trucks in
  let belowQuota := filter belowQuotaP activeTrucks in
  let atQuota := filter atQuotaP activeTrucks in
  let aboveQuota := filter aboveQuotaP activeTrucks in
  let totalLoads :=
    fold_left (fun sum t => (sum + Number.ofZ (Truck.weeklyLoads t))%float)
              activeTrucks 0%float in
  {| totalTrucks := length activeTrucks;
     trucksAtQuota := length atQuota;
     trucksBelowQuota := length belowQuota;
     trucksAboveQuota := length aboveQuota;
     fairnessPercentage :=
       Math.round
         ((Number.ofNat (length atQuota + length aboveQuota)
           / Number.ofNat (length activeTrucks)) * 100)%float;
     averageLoadsPerTruck :=
       (Math.round
          ((totalLoads / Number.ofNat (length activeTrucks)) * 10)
        / 10)%float |}.

End InitialTrucks.

(** ** Auxiliary definitions for the statements *)



(** Exact percentage rounded half-up: the nearest integer to
    [100 * k / n], ties upwards, in integer arithmetic. *)
Definition roundHalfUpPercent (k n : nat) : Z :=
  ((200 * Z.of_nat k + Z.of_nat n) / (2 * Z.of_nat n))%Z.

(** The percentage expression of the source on the two counts. *)
Definition percentOf (k n : nat) : float :=
  Math.round ((Number.ofNat k / Number.ofNat n) * 100)%float.

(** Does the program's percentage equal the exact one for every count
    [k <= n] of trucks at or above quota among [n] active trucks? *)
Definition percentExactUpTo (n : nat) : bool :=
  forallb (fun k => PrimFloat.Leibniz.eqb (percentOf k n)
                      (Number.ofZ (roundHalfUpPercent k n)))
          (seq 0 (S n)).

(** The records that a [find] by identifier can reach: for every
    identifier only its first record in input order is kept. *)
Fixpoint keepFirst {A : Type} (key : A -> string) (l : list A) : list A :=
  match l with
  | [] => []
  | x :: xs =>
      x :: filter (fun y => negb (key y =? key x)%string) (keepFirst key xs)
  end.

(** A pair passes every check of the loop. *)
Definition pairAcceptable (trucks : list Truck.t) (loads : list Load.t)
           (a : Assignment.t) : Prop :=
  exists load truck,
    find (fun l => (Load.loadId l =? Assignment.loadId a)%string) loads
      = Some load /\
    find (fun t => (Truck.truckId t =? Assignment.truckId a)%string) trucks
      = Some truck /\
    Truck.active truck = true /\
    (Load.sizeTons load <= Truck.capacityTons truck)%Q /\
    Load.status load = unassigned.

(** The messages of the three checks of a pair, made on a given truck
    and a given load, in the order of the source. *)
Definition checksAgainst (numberToString : Q -> string)
           (truck : Truck.t) (load : Load.t) (a : Assignment.t)
  : list string :=
  ((if Truck.active truck then []
    else [Fairness.truckInactive (Assignment.truckId a)]) ++
   (if Qgt_bool (Load.sizeTons load) (Truck.capacityTons truck)
    then [Fairness.capacityExceeded numberToString (Assignment.loadId a)
            (Load.sizeTons load) (Assignment.truckId a)
            (Truck.capacityTons truck)]
    else []) ++
   (match Load.status load with
    | unassigned => []
    | st => [Fairness.loadAlready (Assignment.loadId a) st]
    end))%list.

(** ** Fixtures *)

(** Rendering of tons used in the examples: decimal digits for integral
    values, which is how JavaScript prints them; a value that is not
    integral is shown as numerator, slash, denominator. *)
Definition decimalTons (q : Q) : string :=
  let num := NilZero.string_of_int (Z.to_int (Qnum q)) in
  if (Qden q =? 1)%positive then num
  else num ++ "/" ++ NilZero.string_of_uint (Pos.to_uint (Qden q)).

(** The test suite's [createTruck] and [createLoad], with the fields the
    tests override. *)
Definition truckWith (truckId : string) (capacityTons : Z) (wl : Z)
           (isActive : bool) : Truck.t :=
  Truck.mk "1" truckId "Test Trucking" large (capacityTons # 1) wl 3 isActive.

Definition createTruck (wl : Z) (isActive : bool) : Truck.t :=
  truckWith "T-001" 18 wl isActive.

Definition loadWith (loadId : string) (sizeTons : Z) (st : LoadStatus)
  : Load.t :=
  Load.mk "1" loadId (sizeTons # 1) "Kingston" "JBG Depot" high
          "2026-01-14T08:00:00Z" st None.

(** The trucks and loads of the [validateAssignments] tests. *)
Definition testTrucks : list Truck.t :=
  [truckWith "T-001" 18 2 true;
   truckWith "T-002" 10 2 true;
   truckWith "T-003" 20 2 false].

Definition testLoads : list Load.t :=
  [loadWith "L-1001" 8 unassigned;
   loadWith "L-1002" 15 unassigned;
   loadWith "L-1003" 5 assigned].

(** One load proposed for two different trucks. *)
Definition duplicateBatch : list Assignment.t :=
  [Assignment.mk "L-1001" "T-001"; Assignment.mk "L-1001" "T-002"].



(** A second record that reuses the identifier T-001. *)
Definition shadowedTruck : Truck.t := truckWith "T-001" 5 0 false.

(** Forty active trucks, twenty-three of them at quota. *)
Definition fleet_23_of_40 : list Truck.t :=
  repeat (createTruck 3 true) 23 ++ repeat (createTruck 0 true) 17.

(** Scenario A of the specification: two active trucks below quota and an
    inactive one. *)
Definition scenarioA : list Truck.t :=
  [createTruck 2 true; createTruck 5 false; createTruck 1 true].

(** Scenario B of the specification: weekly loads 2, 3, 4, 1, 5 against a
    quota of 3. *)
Definition scenarioB : list Truck.t :=
  map (fun wl => createTruck wl true) [2; 3; 4; 1; 5]%Z.

(** * The callers of the engine

    The dashboard's own metrics and ranking, the commit of a generated
    schedule in [App.tsx], the creation of loads and the import of trucks,
    and the seed fleet of [initialTrucks.ts]. *)

(** ** Numbers as text, array indices *)

(** [String(n)] and a template literal on a non-negative integer: its
    decimal digits. *)
Definition decimal (n : nat) : string :=
  NilZero.string_of_uint (Nat.to_uint n).

(** [s.padStart(targetLength, c)] for a one-character pad. *)
Definition padStart (targetLength : nat) (c : ascii) (s : string) : string :=
  string_of_list_ascii (repeat c (targetLength - String.length s)) ++ s.

(** [Array.prototype.findIndex]; the result -1 is [None]. *)
Fixpoint findIndex {A : Type} (p : A -> bool) (l : list A) : option nat :=
  match l with
  | [] => None
  | x :: xs => if p x then Some 0%nat else option_map S (findIndex p xs)
  end.

(** [l[i] = x] for an index inside the array (the only use in the source
    is with an index returned by [findIndex]); outside, the list is left
    as it is. *)
Fixpoint setAt {A : Type} (i : nat) (x : A) (l : list A) : list A :=
  match l, i with
  | [], _ => []
  | _ :: ys, O => x :: ys
  | y :: ys, S j => y :: setAt j x ys
  end.

(** [Math.floor] on binary64: NaN, the infinities and the zeros are
    returned unchanged. *)
Definition Math_floor (x : float) : float :=
  match Prim2SF x with
  | S754_finite s m e =>
      if (0 <=? e)%Z then x
      else
        let sm := if s then Z.neg m else Z.pos m in
        let r := (sm / 2 ^ (- e))%Z in
        if (r =? 0)%Z then 0%float else Number.ofZ r
  | _ => x
  end.

(** The exact rational value of a finite binary64 number.  Zero is given
    for NaN and the infinities, which no capacity of the seed fleet is. *)
Definition Number_toQ (x : float) : Q :=
  match Prim2SF x with
  | S754_finite s m e =>
      let sm := if s then Z.neg m else Z.pos m in
      if (0 <=? e)%Z then (sm * 2 ^ e)%Z # 1
      else sm # (Z.to_pos (2 ^ (- e)))
  | _ => 0
  end.

(** ** The dashboard ([Dashboard] component) *)

Module Dashboard.

(** The [metrics] memo: the third copy of the computation, with a guard on
    each of the two derived fields. *)
Definition metrics (trucks : list Truck.t) : FairnessMetrics :=
  let activeTrucks := filter Truck.active trucks in
  let belowQuota := filter belowQuotaP activeTrucks in
  let atQuota := filter atQuotaP activeTrucks in
  let aboveQuota := filter aboveQuotaP activeTrucks in
  let totalLoads :=
    fold_left (fun sum t => (sum + Number.ofZ (Truck.weeklyLoads t))%float)
              activeTrucks 0%float in
  {| totalTrucks := length activeTrucks;
     trucksAtQuota := length atQuota;
     trucksBelowQuota := length belowQuota;
     trucksAboveQuota := length aboveQuota;
     fairnessPercentage :=
       if (0 <? length activeTrucks)%nat then
         Math.round
           ((Number.ofNat (length atQuota + length aboveQuota)
             / Number.ofNat (length activeTrucks)) * 100)%float
       else 0%float;
     averageLoadsPerTruck :=
       if (0 <? length activeTrucks)%nat then
         (Math.round
            ((totalLoads / Number.ofNat (length activeTrucks)) * 10)
          / 10)%float
       else 0%float |}.

(** The [unassignedLoads] memo. *)
Definition unassignedLoads (loads : list Load.t) : list Load.t :=
  filter (fun l => LoadStatus_eqb (Load.status l) unassigned) loads.

(** The rows of the "trucks needing loads" table:
    [trucks.filter(...).sort(...).slice(0, 10)]. *)
Definition trucksNeedingLoads (trucks : list Truck.t) : list Truck.t :=
  firstn 10
    (Array.sort
       (fun a b => (Truck.weeklyLoads a - Truck.weeklyLoads b)%Z)
       (filter (fun t => Truck.active t && belowQuotaP t) trucks)).

End Dashboard.

(** ** The load list ([LoadList] component): the two counters *)

Module LoadList.

Definition unassignedCount (loads : list Load.t) : nat :=
  length (filter (fun l => LoadStatus_eqb (Load.status l) unassigned) loads).

Definition assignedCount (loads : list Load.t) : nat :=
  length
    (filter (fun l => negb (LoadStatus_eqb (Load.status l) unassigned)) loads).

End LoadList.

(** ** [App.tsx] *)

Module App.

(** The spread [{ ...load, status: 'assigned', assignedTruckId: truck.id }]. *)
Definition assignTo (truck : Truck.t) (load : Load.t) : Load.t :=
  Load.mk (Load.id load) (Load.loadId load) (Load.sizeTons load)
          (Load.destination load) (Load.origin load) (Load.priority load)
          (Load.deadline load) assigned (Some (Truck.id truck)).

(** The spread [{ ...truck, weeklyLoads: truck.weeklyLoads + 1 }]; the
    integer sum is the program's for weekly loads below [2^53]. *)
Definition oneMoreLoad (truck : Truck.t) : Truck.t :=
  Truck.mk (Truck.id truck) (Truck.truckId truck)
           (Truck.contractorName truck) (Truck.size truck)
           (Truck.capacityTons truck) (Truck.weeklyLoads truck + 1)%Z
           (Truck.minWeeklyLoads truck) (Truck.active truck).

(** One iteration of the loop of the [setLoads] updater in
    [handleScheduleGenerated]; [trucks] is the fleet the callback closed
    over. *)
Definition assignLoadStep (trucks : list Truck.t)
           (updatedLoads : list Load.t) (assignment : Assignment.t)
  : list Load.t :=
  match findIndex
          (fun l => (Load.loadId l =? Assignment.loadId assignment)%string)
          updatedLoads with
  | None => updatedLoads
  | Some loadIndex =>
      match find
              (fun t => (Truck.truckId t =? Assignment.truckId assignment)%string)
              trucks with
      | None => updatedLoads
      | Some truck =>
          match nth_error updatedLoads loadIndex with
          | Some load => setAt loadIndex (assignTo truck load) updatedLoads
          | None => updatedLoads
          end
      end
  end.

(** The [setLoads] updater of [handleScheduleGenerated]. *)
Definition scheduleLoads (assignments : list Assignment.t)
           (trucks : list Truck.t) (prevLoads : list Load.t) : list Load.t :=
  fold_left (assignLoadStep trucks) assignments prevLoads.

(** One iteration of the loop of the [setTrucks] updater. *)
Definition countLoadStep (updatedTrucks : list Truck.t)
           (assignment : Assignment.t) : list Truck.t :=
  match findIndex
          (fun t => (Truck.truckId t =? Assignment.truckId assignment)%string)
          updatedTrucks with
  | None => updatedTrucks
  | Some truckIndex =>
      match nth_error updatedTrucks truckIndex with
      | Some truck => setAt truckIndex (oneMoreLoad truck) updatedTrucks
      | None => updatedTrucks
      end
  end.

(** The [setTrucks] updater of [handleScheduleGenerated]. *)
Definition scheduleTrucks (assignments : list Assignment.t)
           (prevTrucks : list Truck.t) : list Truck.t :=
  fold_left countLoadStep assignments prevTrucks.

(** The fields a new load is created from
    ([Omit<Load, 'id' | 'loadId' | 'status' | 'assignedTruckId'>]). *)
Record LoadData := {
  sizeTons : Q;
  destination : string;
  origin : string;
  priority : LoadPriority;
  deadline : string
}.

(** [handleAddLoad]: the list of loads after the call.  [loads] is the
    list the callback closed over, whose length numbers the new load;
    [prev] is the list the [setLoads] updater receives and extends. *)
Definition handleAddLoad (loads prev : list Load.t) (loadData : LoadData)
  : list Load.t :=
  let newLoadNum := (length loads + 1001)%nat in
  (prev ++
   [Load.mk ("load-" ++ decimal newLoadNum) ("L-" ++ decimal newLoadNum)
            (sizeTons loadData) (destination loadData) (origin loadData)
            (priority loadData) (deadline loadData) unassigned None])%list.

(** [handleImportTrucks]: the fleet after the call; [prev] is the fleet
    the [setTrucks] updater receives. *)
Definition handleImportTrucks (prev newTrucks : list Truck.t)
  : list Truck.t :=
  (prev ++ newTrucks)%list.

End App.

(** ** The truck import ([TruckImport] component) *)

Module TruckImport.

Record ParsedTruck := {
  contractorName : string;
  size : TruckSize;
  capacityTons : Q;
  weeklyLoads : Z;
  active : bool
}.

(** The record built for the row at position [index]. *)
Definition newTruck (nextTruckNum index : nat) (truck : ParsedTruck)
  : Truck.t :=
  let truckNum := padStart 3 "0"%char (decimal (nextTruckNum + index)) in
  Truck.mk ("truck-" ++ truckNum) ("T-" ++ truckNum)
           (contractorName truck) (size truck) (capacityTons truck)
           (weeklyLoads truck) 3 (active truck).

(** [rows.map((truck, index) => ...)] from position [index] on. *)
Fixpoint mapFrom (nextTruckNum index : nat) (rows : list ParsedTruck)
  : list Truck.t :=
  match rows with
  | [] => []
  | truck :: rest =>
      newTruck nextTruckNum index truck :: mapFrom nextTruckNum (S index) rest
  end.

(** The trucks handed to [onImportTrucks] by [handleConfirmImport] (and,
    with the same code, by [handleSaveManualTrucks]). *)
Definition handleConfirmImport (existingTrucks : list Truck.t)
           (parsedData : list ParsedTruck) : list Truck.t :=
  let nextTruckNum := (length existingTrucks + 1)%nat in
  mapFrom nextTruckNum 0 parsedData.

End TruckImport.

(** ** The seed fleet ([initialTrucks.ts]) *)

Module SeedFleet.

Definition contractorNames : list string :=
  ["Brown's Haulage"; "Campbell Transport"; "Williams Trucking";
   "Davis Logistics"; "Robinson Freight"; "Johnson Carriers";
   "Smith Haulage Co"; "Thomas Transport"; "Anderson Trucking";
   "Jackson Logistics"; "White Carriers"; "Harris Transport";
   "Martin Haulage"; "Thompson Freight"; "Garcia Trucking";
   "Martinez Logistics"; "Robinson Brothers"; "Clark Transport";
   "Rodriguez Haulage"; "Lewis Carriers"; "Lee Trucking";
   "Walker Transport"; "Hall Logistics"; "Allen Freight";
   "Young Haulage"; "Hernandez Trucking"; "King Transport";
   "Wright Carriers"; "Lopez Logistics"; "Hill Haulage";
   "Scott Transport"; "Green Trucking"; "Adams Freight";
   "Baker Logistics"; "Gonzalez Carriers"; "Nelson Haulage";
   "Carter Transport"; "Mitchell Trucking"; "Perez Logistics";
   "Roberts Freight"; "Turner Haulage"; "Phillips Transport";
   "Campbell & Sons"; "Parker Trucking"; "Evans Logistics";
   "Edwards Carriers"; "Collins Haulage"; "Stewart Transport";
   "Sanchez Trucking"; "Morris Freight"; "Rogers Logistics";
   "Reed Carriers"; "Cook Haulage"; "Morgan Transport";
   "Bell Trucking"; "Murphy Logistics"; "Bailey Freight";
   "Rivera Carriers"; "Cooper Haulage"; "Richardson Transport";
   "Cox Trucking"; "Howard Logistics"; "Ward Freight";
   "Torres Carriers"; "Peterson Haulage"; "Gray Transport";
   "Ramirez Trucking"; "James Logistics"; "Watson Freight";
   "Brooks Carriers"; "Kelly Haulage"; "Sanders Transport";
   "Price Trucking"; "Bennett Logistics"; "Wood Freight";
   "Barnes Carriers"; "Ross Haulage"; "Henderson Transport";
   "Coleman Trucking"; "Jenkins Logistics"; "Perry Freight";
   "Powell Carriers"; "Long Haulage"; "Patterson Transport";
   "Hughes Trucking"; "Flores Logistics"; "Washington Freight";
   "Butler Carriers"]%string.

Definition getSizeDistribution (index : nat) : TruckSize :=
  if (index <? 26)%nat then small
  else if (index <? 70)%nat then medium
  else large.

(** [random] is the value returned by the call of [Math.random]. *)
Definition getCapacityForSize (size : TruckSize) (random : float) : float :=
  match size with
  | small => (3 + Math_floor (random * 3))%float
  | medium => (8 + Math_floor (random * 7))%float
  | large => (18 + Math_floor (random * 8))%float
  end.

(** The truck pushed by iteration [i]; [random i] is the value of the one
    call of [Math.random] made in that iteration. *)
Definition seedTruck (random : nat -> float) (i : nat) : Truck.t :=
  let truckNum := padStart 3 "0"%char (decimal (i + 1)) in
  let size := getSizeDistribution i in
  let capacity := getCapacityForSize size (random i) in
  Truck.mk ("truck-" ++ truckNum) ("T-" ++ truckNum)
           (nth (i mod length contractorNames) contractorNames "undefined"%string)
           size (Number_toQ capacity) 0 3 (i <? 85)%nat.

Definition generateTrucks (random : nat -> float) : list Truck.t :=
  map (seedTruck random) (seq 0 88).

End SeedFleet.

(** ** Auxiliary definitions for the statements about the callers *)

(** The display identifier of the truck at position [i] of a fleet that
    was seeded and then only extended by imports. *)
Definition positionalTruckId (i : nat) : string :=
  "T-" ++ padStart 3 "0"%char (decimal (i + 1)).

Definition positionalTruckIds (trucks : list Truck.t) : Prop :=
  forall i t, nth_error trucks i = Some t -> Truck.truckId t = positionalTruckId i.

(** The display identifier of the load at position [i] of a list of loads
    that was only extended by [handleAddLoad]. *)
Definition positionalLoadId (i : nat) : string :=
  "L-" ++ decimal (i + 1001).

Definition positionalLoadIds (loads : list Load.t) : Prop :=
  forall i l, nth_error loads i = Some l -> Load.loadId l = positionalLoadId i.

(** Number of pairs of a batch that name the truck identifier [k]. *)
Definition timesNamed (k : string) (batch : list Assignment.t) : nat :=
  length (filter (fun a => (Assignment.truckId a =? k)%string) batch).

(** Sum of the weekly loads of a fleet. *)
Definition totalWeeklyLoads (trucks : list Truck.t) : Z :=
  fold_right (fun t acc => (Truck.weeklyLoads t + acc)%Z) 0%Z trucks.

(** Number of pairs of a batch whose truck identifier exists in the fleet. *)
Definition pairsWithKnownTruck (trucks : list Truck.t)
           (batch : list Assignment.t) : nat :=
  length
    (filter
       (fun a => existsb (fun t => (Truck.truckId t =? Assignment.truckId a)%string)
                         trucks)
       batch).

(** A count that binary64 holds exactly together with its neighbours: a
    non-negative integer of at most [2^53].  On such counts the sums and
    differences taken by the program are exact as long as their result is
    again in this range, and the integer operations of the model are the
    operations of the program. *)
Definition exactCount (z : Z) : Prop := (0 <= z <= 2 ^ 53)%Z.

(** Every truck of the fleet can receive [n] more loads within the exact
    range. *)
Definition roomFor (n : nat) (trucks : list Truck.t) : Prop :=
  forall t, In t trucks ->
    (0 <= Truck.weeklyLoads t)%Z /\
    (Truck.weeklyLoads t + Z.of_nat n <= 2 ^ 53)%Z.

(** The first element that satisfies [p] replaced by its image under
    [f]: what a [findIndex] followed by an assignment at that index does. *)
Fixpoint replaceFirst {A : Type} (p : A -> bool) (f : A -> A) (l : list A)
  : list A :=
  match l with
  | [] => []
  | x :: xs => if p x then f x :: xs else x :: replaceFirst p f xs
  end.

(** [new] is [old] with at least as many weekly loads and nothing else
    changed. *)
Definition sameTruckMoreLoads (old new : Truck.t) : Prop :=
  Truck.id new = Truck.id old /\
  Truck.truckId new = Truck.truckId old /\
  Truck.contractorName new = Truck.contractorName old /\
  Truck.size new = Truck.size old /\
  Truck.capacityTons new = Truck.capacityTons old /\
  Truck.minWeeklyLoads new = Truck.minWeeklyLoads old /\
  Truck.active new = Truck.active old /\
  (Truck.weeklyLoads old <= Truck.weeklyLoads new)%Z.

(** A truck with [n] more weekly loads. *)
Definition withMoreLoads (n : nat) (t : Truck.t) : Truck.t :=
  Truck.mk (Truck.id t) (Truck.truckId t) (Truck.contractorName t)
           (Truck.size t) (Truck.capacityTons t)
           (Truck.weeklyLoads t + Z.of_nat n)%Z
           (Truck.minWeeklyLoads t) (Truck.active t).

(** [new] is [old], or [old] assigned to a truck of the fleet. *)
Definition keptOrAssigned (trucks : list Truck.t) (old new : Load.t) : Prop :=
  new = old \/ exists truck, In truck trucks /\ new = App.assignTo truck old.

(** * Regions ([regions.ts] utility, used by the load list)

    Strings are sequences of code units below 256.  [toLowerCase] and the
    set of property names that an object literal inherits from
    [Object.prototype] are built-ins and are parameters. *)

Inductive JamaicaRegion :=
  KingstonMetro | Western | NorthCoast | Central | Eastern.

Definition JamaicaRegion_eqb (a b : JamaicaRegion) : bool :=
  match a, b with
  | KingstonMetro, KingstonMetro | Western, Western
  | NorthCoast, NorthCoast | Central, Central | Eastern, Eastern => true
  | _, _ => false
  end.

(** The own properties of [DESTINATION_REGIONS], in source order. *)
Definition DESTINATION_REGIONS : list (string * JamaicaRegion) :=
  [("Kingston", KingstonMetro); ("Portmore", KingstonMetro);
   ("Spanish Town", KingstonMetro); ("Half Way Tree", KingstonMetro);
   ("Liguanea", KingstonMetro); ("Constant Spring", KingstonMetro);
   ("Papine", KingstonMetro); ("Cross Roads", KingstonMetro);
   ("Montego Bay", Western); ("Negril", Western);
   ("Savanna-la-Mar", Western); ("Lucea", Western);
   ("Black River", Western);
   ("Ocho Rios", NorthCoast); ("Falmouth", NorthCoast);
   ("Runaway Bay", NorthCoast); ("Discovery Bay", NorthCoast);
   ("St. Ann's Bay", NorthCoast);
   ("Mandeville", Central); ("May Pen", Central);
   ("Old Harbour", Central); ("Linstead", Central);
   ("Chapelton", Central);
   ("Port Antonio", Eastern); ("Morant Bay", Eastern);
   ("Yallahs", Eastern); ("Bull Bay", Eastern)]%string.

(** ** The regular expressions of [getRegion]

    Each expression is an alternation of sequences of four kinds of
    atoms: a literal text, [.?], an optional literal character such as
    [\.?], and [\s*]. *)

Inductive atom :=
| Lit (text : string)
| OptAny
| OptChr (c : ascii)
| ManySpace.

(** [.] matches every code unit but a line terminator. *)
Definition isLineTerminator (c : ascii) : bool :=
  let n := nat_of_ascii c in ((n =? 10) || (n =? 13))%nat.

(** [\s]: tab, line feed, vertical tab, form feed, carriage return,
    space, no-break space. *)
Definition isSpace (c : ascii) : bool :=
  let n := nat_of_ascii c in
  ((n =? 9) || (n =? 10) || (n =? 11) || (n =? 12) || (n =? 13)
   || (n =? 32) || (n =? 160))%nat.

(** The rest of [s] after the prefix [text], if [s] starts with it. *)
Fixpoint stripPrefix (text s : string) : option string :=
  match text, s with
  | EmptyString, _ => Some s
  | String a text', String b s' =>
      if Ascii.eqb a b then stripPrefix text' s' else None
  | String _ _, EmptyString => None
  end.

(** Does some way of matching the sequence consume a prefix of [s]? *)
Fixpoint matchSeq (atoms : list atom) (s : string) : bool :=
  match atoms with
  | [] => true
  | Lit text :: rest =>
      match stripPrefix text s with
      | Some s' => matchSeq rest s'
      | None => false
      end
  | OptAny :: rest =>
      match s with
      | String c s' => negb (isLineTerminator c) && matchSeq rest s'
      | EmptyString => false
      end
      || matchSeq rest s
  | OptChr c :: rest =>
      match s with
      | String c' s' => Ascii.eqb c c' && matchSeq rest s'
      | EmptyString => false
      end
      || matchSeq rest s
  | ManySpace :: rest =>
      (fix many (s : string) : bool :=
         matchSeq rest s ||
         match s with
         | String c s' => isSpace c && many s'
         | EmptyString => false
         end) s
  end.

(** [regex.test(s)]: a match of one of the alternatives at some position. *)
Fixpoint regexTest (alternatives : list (list atom)) (s : string) : bool :=
  existsb (fun atoms => matchSeq atoms s) alternatives ||
  match s with
  | String _ s' => regexTest alternatives s'
  | EmptyString => false
  end.

Definition kingstonMetroPattern : list (list atom) :=
  [[Lit "kingston"]; [Lit "portmore"]; [Lit "spanish town"];
   [Lit "half"; OptAny; Lit "way"]; [Lit "liguanea"]; [Lit "constant"];
   [Lit "papine"]; [Lit "cross"; OptAny; Lit "roads"]].

Definition westernPattern : list (list atom) :=
  [[Lit "montego"]; [Lit "negril"]; [Lit "savanna"]; [Lit "lucea"];
   [Lit "black river"]].

Definition northCoastPattern : list (list atom) :=
  [[Lit "ocho rios"]; [Lit "falmouth"]; [Lit "runaway"]; [Lit "discovery"];
   [Lit "st"; OptChr "."; ManySpace; Lit "ann"]].

Definition centralPattern : list (list atom) :=
  [[Lit "mandeville"]; [Lit "may pen"]; [Lit "old harbour"];
   [Lit "linstead"]; [Lit "chapelton"]].

Definition easternPattern : list (list atom) :=
  [[Lit "port antonio"]; [Lit "morant"]; [Lit "yallahs"]; [Lit "bull bay"]].

(** The "fuzzy matching" part of [getRegion], on the lower-cased
    destination; the five tests in source order, then the default. *)
Definition fuzzyRegion (lowerDest : string) : JamaicaRegion :=
  if regexTest kingstonMetroPattern lowerDest then KingstonMetro
  else if regexTest westernPattern lowerDest then Western
  else if regexTest northCoastPattern lowerDest then NorthCoast
  else if regexTest centralPattern lowerDest then Central
  else if regexTest easternPattern lowerDest then Eastern
  else Central.

(** What a call of [getRegion] returns: a region, or, when the
    destination is the name of an inherited property of the table, the
    value of that property, which is no region. *)
Inductive RegionResult :=
| IsRegion (r : JamaicaRegion)
| InheritedValue.

Module Regions.
Section Builtins.

Variable toLowerCase : string -> string.
Variable inheritedProperty : string -> bool.

(** [DESTINATION_REGIONS[destination]]: own property first, then the
    prototype; [None] is [undefined]. *)
Definition lookup (destination : string) : option RegionResult :=
  match find (fun kv => (fst kv =? destination)%string) DESTINATION_REGIONS with
  | Some kv => Some (IsRegion (snd kv))
  | None => if inheritedProperty destination then Some InheritedValue else None
  end.

Definition getRegion (destination : string) : RegionResult :=
  match lookup destination with
  | Some v => v
  | None => IsRegion (fuzzyRegion (toLowerCase destination))
  end.

Section Grouping.

Context {T : Type} (destinationOf : T -> string).

(** The object [grouped]: one array per region. *)
Definition Grouped := JamaicaRegion -> list T.

Definition emptyGroups : Grouped := fun _ => [].

(** [grouped[region].push(item)] for a region. *)
Definition push (grouped : Grouped) (region : JamaicaRegion) (item : T)
  : Grouped :=
  fun r => if JamaicaRegion_eqb r region then (grouped r ++ [item])%list
           else grouped r.

(** One iteration of the loop.  When [getRegion] returns an inherited
    value, [grouped[region]] is [undefined] and the call of [push] throws
    a [TypeError]: the result is [None]. *)
Definition groupStep (grouped : option Grouped) (item : T)
  : option Grouped :=
  match grouped with
  | None => None
  | Some g =>
      match getRegion (destinationOf item) with
      | IsRegion region => Some (push g region item)
      | InheritedValue => None
      end
  end.

Definition groupByRegion (items : list T) : option Grouped :=
  fold_left groupStep items (Some emptyGroups).

End Grouping.

(** The [regionStats] memo of the load list: per region, the number of
    loads and the number of unassigned loads; [None] when the loop throws. *)
Definition Stats := JamaicaRegion -> nat * nat.

Definition statsStep (stats : option Stats) (load : Load.t) : option Stats :=
  match stats with
  | None => None
  | Some st =>
      match getRegion (Load.destination load) with
      | IsRegion region =>
          Some (fun r =>
                  if JamaicaRegion_eqb r region then
                    (S (fst (st r)),
                     if LoadStatus_eqb (Load.status load) unassigned
                     then S (snd (st r)) else snd (st r))
                  else st r)
      | InheritedValue => None
      end
  end.

Definition regionStats (loads : list Load.t) : option Stats :=
  fold_left statsStep loads (Some (fun _ => (0, 0)%nat)).

End Builtins.
End Regions.

(** Lower case of the letters A to Z, the other code units unchanged:
    what [toLowerCase] does on a string of ASCII characters. *)
Definition asciiLower (s : string) : string :=
  string_of_list_ascii
    (map (fun c =>
            let n := nat_of_ascii c in
            if ((65 <=? n) && (n <=? 90))%nat then ascii_of_nat (n + 32)
            else c)
         (list_ascii_of_string s)).

(** Do two listed destinations that differ in letter case only have the
    same region, and does the fuzzy matching give every listed destination
    its listed region? *)
Definition tableConsistent : bool :=
  forallb
    (fun kv =>
       JamaicaRegion_eqb (fuzzyRegion (asciiLower (fst kv))) (snd kv) &&
       forallb
         (fun kv' =>
            negb (asciiLower (fst kv) =? asciiLower (fst kv'))%string
            || JamaicaRegion_eqb (snd kv) (snd kv'))
         DESTINATION_REGIONS)
    DESTINATION_REGIONS.

(** The region of a destination as [getRegion] computes it, when it is
    one. *)
Definition regionIs (toLowerCase : string -> string)
           (inheritedProperty : string -> bool)
           (r : JamaicaRegion) (destination : string) : bool :=
  match Regions.getRegion toLowerCase inheritedProperty destination with
  | IsRegion r' => JamaicaRegion_eqb r' r
  | InheritedValue => false
  end.

(** * Theorems *)

Lemma no_active_filter (trucks : list Truck.t) :
  (forall t, In t trucks -> Truck.active t = false) ->
  filter Truck.active trucks = [].
Proof.
  induction trucks as [|t ts IH]; intros H; simpl.
  - reflexivity.
  - rewrite (H t (or_introl eq_refl)). apply IH.
    intros u Hu. apply H. now right.
Qed.

(** C1. With no active truck in the collection (empty, or inactive trucks
    only) [calculateFairnessMetrics] returns the metrics object whose six
    fields are all zero; the percentage and the average are the number 0,
    not NaN. *)
Theorem calculateFairnessMetrics_no_active (trucks : list Truck.t) :
  (forall t, In t trucks -> Truck.active t = false) ->
  let m := Fairness.calculateFairnessMetrics trucks in
  totalTrucks m = 0%nat /\ trucksAtQuota m = 0%nat /\
  trucksBelowQuota m = 0%nat /\ trucksAboveQuota m = 0%nat /\
  fairnessPercentage m = 0%float /\ averageLoadsPerTruck m = 0%float /\
  is_nan (fairnessPercentage m) = false /\
  is_nan (averageLoadsPerTruck m) = false.
Proof.
  intros H. unfold Fairness.calculateFairnessMetrics.
  rewrite (no_active_filter trucks H). simpl.
  repeat split; reflexivity.
Qed.

Lemma calculateFairnessMetrics_no_active_witness :
  let trucks := [createTruck 5 false; createTruck 0 false] in
  (forall t, In t trucks -> Truck.active t = false) /\
  fairnessPercentage (Fairness.calculateFairnessMetrics trucks) = 0%float /\
  fairnessPercentage (Fairness.calculateFairnessMetrics []) = 0%float.
Proof.
  assert (H : forall t, In t [createTruck 5 false; createTruck 0 false] ->
                        Truck.active t = false).
  { intros t [<-|[<-|[]]]; reflexivity. }
  split; [exact H|]. split.
  - exact (proj1 (proj2 (proj2 (proj2 (proj2
      (calculateFairnessMetrics_no_active _ H)))))).
  - refine (proj1 (proj2 (proj2 (proj2 (proj2
      (calculateFairnessMetrics_no_active [] _)))))).
    intros t [].
Defined.

(** ** The two copies of the metrics computation *)

(** With an active truck in the collection the guard of [fairness.ts] is
    not taken, and the two copies compute the same object. *)
Lemma metrics_copies_agree_on_active (trucks : list Truck.t) :
  filter Truck.active trucks <> [] ->
  InitialTrucks.calculateFairnessMetrics trucks =
  Fairness.calculateFairnessMetrics trucks.
Proof.
  unfold InitialTrucks.calculateFairnessMetrics,
    Fairness.calculateFairnessMetrics.
  destruct (filter Truck.active trucks) as [|t ts]; intros H.
  - now elim H.
  - reflexivity.
Qed.

(** C2. On the empty collection, and on a collection of inactive trucks
    only, the copy in [initialTrucks.ts] divides zero by zero: its
    percentage and its average are NaN, whereas the copy in [fairness.ts]
    returns zero for both, so the two results differ. *)
Theorem metrics_copies_differ_on_empty_fleet :
  fairnessPercentage (InitialTrucks.calculateFairnessMetrics []) = nan /\
  averageLoadsPerTruck (InitialTrucks.calculateFairnessMetrics []) = nan /\
  fairnessPercentage (Fairness.calculateFairnessMetrics []) = 0%float /\
  averageLoadsPerTruck (Fairness.calculateFairnessMetrics []) = 0%float /\
  fairnessPercentage
    (InitialTrucks.calculateFairnessMetrics [createTruck 5 false]) = nan /\
  InitialTrucks.calculateFairnessMetrics [] <>
  Fairness.calculateFairnessMetrics [].
Proof.
  repeat split; try (vm_compute; reflexivity).
  intros H.
  apply (f_equal (fun m => is_nan (fairnessPercentage m))) in H.
  vm_compute in H. discriminate H.
Qed.

(** ** Partition of the active trucks *)

Lemma quota_trichotomy (t : Truck.t) :
  (belowQuotaP t = true /\ atQuotaP t = false /\ aboveQuotaP t = false) \/
  (belowQuotaP t = false /\ atQuotaP t = true /\ aboveQuotaP t = false) \/
  (belowQuotaP t = false /\ atQuotaP t = false /\ aboveQuotaP t = true).
Proof.
  unfold belowQuotaP, atQuotaP, aboveQuotaP.
  rewrite Z.gtb_ltb.
  destruct (Z.ltb_spec (Truck.weeklyLoads t) (Truck.minWeeklyLoads t));
    destruct (Z.eqb_spec (Truck.weeklyLoads t) (Truck.minWeeklyLoads t));
    destruct (Z.ltb_spec (Truck.minWeeklyLoads t) (Truck.weeklyLoads t));
    try lia; auto.
Qed.

Lemma quota_partition_length (l : list Truck.t) :
  (length (filter belowQuotaP l) + length (filter atQuotaP l)
   + length (filter aboveQuotaP l) = length l)%nat.
Proof.
  induction l as [|t ts IH]; simpl; [reflexivity|].
  destruct (quota_trichotomy t) as [(-> & -> & ->)|[(-> & -> & ->)|(-> & -> & ->)]];
    simpl; lia.
Qed.

Lemma filter_filter {A} (p q : A -> bool) (l : list A) :
  filter q (filter p l) = filter (fun x => p x && q x) l.
Proof.
  induction l as [|x xs IH]; simpl; [reflexivity|].
  destruct (p x); simpl; [destruct (q x)|]; now rewrite IH.
Qed.

(** C3. The three quota counts add up to [totalTrucks], [totalTrucks] is
    the number of active trucks of the input, and each count is the number
    of active trucks on its side of the trichotomy
    [weeklyLoads < / = / > minWeeklyLoads]. *)
Theorem calculateFairnessMetrics_partition (trucks : list Truck.t) :
  let m := Fairness.calculateFairnessMetrics trucks in
  (trucksBelowQuota m + trucksAtQuota m + trucksAboveQuota m
   = totalTrucks m)%nat /\
  totalTrucks m = length (filter Truck.active trucks) /\
  trucksBelowQuota m =
    length (filter (fun t => Truck.active t && belowQuotaP t) trucks) /\
  trucksAtQuota m =
    length (filter (fun t => Truck.active t && atQuotaP t) trucks) /\
  trucksAboveQuota m =
    length (filter (fun t => Truck.active t && aboveQuotaP t) trucks).
Proof.
  unfold Fairness.calculateFairnessMetrics.
  rewrite <- !filter_filter.
  destruct (filter Truck.active trucks) as [|t ts] eqn:E.
  - simpl. repeat split; reflexivity.
  - cbv zeta. change (length (t :: ts) =? 0)%nat with false. cbv iota.
    cbn [totalTrucks trucksBelowQuota trucksAtQuota trucksAboveQuota].
    split; [apply quota_partition_length|].
    repeat split; reflexivity.
Qed.

(** ** The fairness percentage *)

(** With an active truck, the percentage field is [Math.round] applied to
    the binary64 product of the binary64 quotient by 100. *)
Lemma fairnessPercentage_unfold (trucks : list Truck.t) :
  filter Truck.active trucks <> [] ->
  let act := filter Truck.active trucks in
  fairnessPercentage (Fairness.calculateFairnessMetrics trucks) =
  Math.round
    ((Number.ofNat (length (filter atQuotaP act)
                    + length (filter aboveQuotaP act))
      / Number.ofNat (length act)) * 100)%float.
Proof.
  unfold Fairness.calculateFairnessMetrics.
  destruct (filter Truck.active trucks) as [|t ts]; intros H.
  - now elim H.
  - reflexivity.
Qed.

(** Scenario B of the specification: two of five trucks below quota. *)
Lemma fairnessPercentage_scenarioB :
  fairnessPercentage (Fairness.calculateFairnessMetrics scenarioB)
  = 60%float.
Proof. vm_compute. reflexivity. Qed.

(** C9. With 23 of 40 active trucks at quota the exact percentage is 57.5,
    which rounds half-up to 58; the program divides first, the binary64
    product [(23 / 40) * 100] falls just below 57.5, and the field is 57. *)
Theorem fairnessPercentage_23_of_40 :
  length (filter Truck.active fleet_23_of_40) = 40%nat /\
  (length (filter (fun t => atQuotaP t || aboveQuotaP t) fleet_23_of_40)
   = 23)%nat /\
  roundHalfUpPercent 23 40 = 58%Z /\
  ((Number.ofNat 23 / Number.ofNat 40) * 100 <? 57.5)%float = true /\
  fairnessPercentage (Fairness.calculateFairnessMetrics fleet_23_of_40)
  = 57%float /\
  fairnessPercentage (Fairness.calculateFairnessMetrics fleet_23_of_40)
  <> Number.ofZ (roundHalfUpPercent 23 40).
Proof.
  repeat split; try (vm_compute; reflexivity).
  intros H.
  apply (f_equal (fun x => (x <? 57.5)%float)) in H.
  vm_compute in H. discriminate H.
Qed.

Lemma quota_met_le_active (l : list Truck.t) :
  (length (filter atQuotaP l) + length (filter aboveQuotaP l) <= length l)%nat.
Proof.
  pose proof (quota_partition_length l). lia.
Qed.

(** Up to 39 active trucks the program's percentage is the exact
    percentage rounded half-up; 23 of 40 is the first count on which the
    two differ. *)
Lemma fairnessPercentage_exact_below_40 (trucks : list Truck.t) :
  let act := filter Truck.active trucks in
  (1 <= length act <= 39)%nat ->
  fairnessPercentage (Fairness.calculateFairnessMetrics trucks) =
  Number.ofZ (roundHalfUpPercent
                (length (filter atQuotaP act) + length (filter aboveQuotaP act))
                (length act)).
Proof.
  intros act Hn.
  assert (Hne : filter Truck.active trucks <> []).
  { intros E. subst act. rewrite E in Hn. simpl in Hn. lia. }
  rewrite (fairnessPercentage_unfold trucks Hne). fold act.
  pose proof (quota_met_le_active act) as Hk.
  set (k := (length (filter atQuotaP act)
             + length (filter aboveQuotaP act))%nat) in *.
  set (n := length act) in *.
  assert (Hall : forallb percentExactUpTo (seq 1 39) = true)
    by (vm_compute; reflexivity).
  rewrite forallb_forall in Hall.
  assert (Hin : In n (seq 1 39)) by (apply in_seq; lia).
  specialize (Hall n Hin). unfold percentExactUpTo in Hall.
  rewrite forallb_forall in Hall.
  assert (Hik : In k (seq 0 (S n))) by (apply in_seq; lia).
  apply Leibniz.eqb_spec. exact (Hall k Hik).
Qed.

(** ** Facts about [Array.sort] *)

Section SortFacts.

Context {A : Type} (compareFn : A -> A -> Z).

Let before (a b : A) : Prop := (compareFn a b <= 0)%Z.

Lemma insert_perm (x : A) (l : list A) :
  Permutation (Array.insert compareFn x l) (x :: l).
Proof.
  induction l as [|y ys IH]; simpl.
  - apply Permutation_refl.
  - destruct (compareFn x y <=? 0)%Z.
    + apply Permutation_refl.
    + apply perm_trans with (y :: x :: ys).
      * now apply perm_skip.
      * apply perm_swap.
Qed.

Lemma sort_perm (l : list A) : Permutation (Array.sort compareFn l) l.
Proof.
  induction l as [|x xs IH]; simpl.
  - apply perm_nil.
  - apply perm_trans with (x :: Array.sort compareFn xs).
    + apply insert_perm.
    + now apply perm_skip.
Qed.

Lemma sort_In (l : list A) (x : A) :
  In x (Array.sort compareFn l) <-> In x l.
Proof.
  split; apply Permutation_in;
    [apply sort_perm | apply Permutation_sym, sort_perm].
Qed.

(** An inserted element passes only elements of its own class, so the
    elements of one class keep their order. *)
Lemma insert_filter (p : A -> bool) (x : A) (l : list A) :
  (forall a b, p a = true -> p b = true -> before a b) ->
  filter p (Array.insert compareFn x l) = filter p (x :: l).
Proof.
  intros Hp. induction l as [|y ys IH]; [reflexivity|].
  cbn [Array.insert].
  destruct (Z.leb_spec (compareFn x y) 0) as [Hle|Hgt]; [reflexivity|].
  cbn [filter] in *. rewrite IH.
  destruct (p x) eqn:Px; [|reflexivity].
  destruct (p y) eqn:Py; [|reflexivity].
  specialize (Hp x y Px Py). unfold before in Hp. lia.
Qed.

Lemma sort_filter (p : A -> bool) (l : list A) :
  (forall a b, p a = true -> p b = true -> before a b) ->
  filter p (Array.sort compareFn l) = filter p l.
Proof.
  intros Hp. induction l as [|x xs IH]; [reflexivity|].
  cbn [Array.sort fold_right].
  fold (Array.sort compareFn xs).
  rewrite (insert_filter p x _ Hp). cbn [filter]. now rewrite IH.
Qed.

Hypothesis before_total : forall a b, ~ before a b -> before b a.
Hypothesis before_trans : forall a b c, before a b -> before b c -> before a c.

Lemma insert_sorted (x : A) (l : list A) :
  StronglySorted before l ->
  StronglySorted before (Array.insert compareFn x l).
Proof.
  induction 1 as [|y ys Hs IH Hy]; simpl.
  - constructor; constructor.
  - destruct (Z.leb_spec (compareFn x y) 0) as [Hle|Hgt].
    + constructor; [now constructor|].
      constructor; [exact Hle|].
      eapply Forall_impl; [|exact Hy].
      intros z Hz. now apply before_trans with y.
    + constructor; [exact IH|].
      apply (Permutation_Forall (Permutation_sym (insert_perm x ys))).
      constructor; [|exact Hy].
      apply before_total. unfold before. lia.
Qed.

Lemma sort_sorted (l : list A) :
  StronglySorted before (Array.sort compareFn l).
Proof.
  induction l as [|x xs IH]; simpl.
  - constructor.
  - now apply insert_sorted.
Qed.

Lemma before_refl (a : A) : before a a.
Proof.
  destruct (Z.leb_spec (compareFn a a) 0) as [H|H]; [exact H|].
  apply before_total. unfold before. lia.
Qed.

(** Two sorted arrangements of the same elements that keep every class
    of mutually equivalent elements in the same order are equal. *)
Lemma stable_sorted_unique (l1 l2 : list A) :
  Permutation l1 l2 ->
  StronglySorted before l1 -> StronglySorted before l2 ->
  (forall p : A -> bool,
      (forall a b, p a = true -> p b = true -> before a b) ->
      filter p l1 = filter p l2) ->
  l1 = l2.
Proof.
  revert l2. induction l1 as [|x r1 IH]; intros l2 Hperm Hs1 Hs2 Hst.
  - now apply Permutation_nil in Hperm.
  - destruct l2 as [|y r2].
    + apply Permutation_sym, Permutation_nil in Hperm. discriminate.
    + inversion Hs1 as [|? ? Hs1' Hx]; subst.
      inversion Hs2 as [|? ? Hs2' Hy]; subst.
      rewrite Forall_forall in Hx, Hy.
      assert (Hxy : before x y).
      { assert (Hin : In y (x :: r1))
          by (apply (Permutation_in y (Permutation_sym Hperm)); now left).
        destruct Hin as [->|Hin]; [apply before_refl | now apply Hx]. }
      assert (Hyx : before y x).
      { assert (Hin : In x (y :: r2))
          by (apply (Permutation_in x Hperm); now left).
        destruct Hin as [->|Hin]; [apply before_refl | now apply Hy]. }
      set (cls := fun z => (compareFn x z <=? 0)%Z && (compareFn z x <=? 0)%Z).
      assert (Hcls : forall a b, cls a = true -> cls b = true -> before a b).
      { intros a b Ha Hb. unfold cls in Ha, Hb.
        apply andb_true_iff in Ha, Hb.
        destruct Ha as [_ Ha]. destruct Hb as [Hb _].
        apply Z.leb_le in Ha, Hb. now apply before_trans with x. }
      assert (Hcx : cls x = true).
      { unfold cls. pose proof (before_refl x) as Hr. unfold before in Hr.
        apply Z.leb_le in Hr. now rewrite Hr. }
      assert (Hcy : cls y = true).
      { unfold cls. apply andb_true_iff.
        split; apply Z.leb_le; assumption. }
      pose proof (Hst cls Hcls) as E. cbn [filter] in E.
      rewrite Hcx, Hcy in E. injection E as Exy _. subst y.
      f_equal. apply IH; try assumption.
      * now apply Permutation_cons_inv with x.
      * intros p Hp. specialize (Hst p Hp). cbn [filter] in Hst.
        destruct (p x); [now injection Hst | exact Hst].
Qed.

(** The result of a stable sort with a consistent comparator is
    determined by the contract of [Array.prototype.sort]: any sorted
    rearrangement of [l] that keeps equivalent elements in input order is
    [Array.sort compareFn l]. *)
Lemma sort_unique (l l' : list A) :
  Permutation l' l ->
  StronglySorted before l' ->
  (forall p : A -> bool,
      (forall a b, p a = true -> p b = true -> before a b) ->
      filter p l' = filter p l) ->
  l' = Array.sort compareFn l.
Proof.
  intros Hperm Hs Hst. apply stable_sorted_unique.
  - apply perm_trans with l; [exact Hperm|].
    apply Permutation_sym, sort_perm.
  - exact Hs.
  - apply sort_sorted.
  - intros p Hp. rewrite (Hst p Hp). symmetry. now apply sort_filter.
Qed.

End SortFacts.

Lemma StronglySorted_weaken {A} (R R' : A -> A -> Prop) (P : A -> Prop)
      (l : list A) :
  (forall a b, P a -> P b -> R a b -> R' a b) ->
  Forall P l -> StronglySorted R l -> StronglySorted R' l.
Proof.
  intros HR HP Hs. induction Hs as [|x xs Hs IH Hx].
  - constructor.
  - inversion HP as [|? ? Px Pxs]; subst.
    constructor; [now apply IH|].
    rewrite Forall_forall in *. intros y Hy.
    apply HR; auto.
Qed.

(** ** Ranking by need *)

(** C6. [getTrucksBelowQuota] returns exactly the active trucks of the
    input that are below quota, in order of non-decreasing [weeklyLoads],
    and for every value of [weeklyLoads] the trucks with that value appear
    in the order they had in the input. *)
Theorem getTrucksBelowQuota_ranked (trucks : list Truck.t) :
  let out := Fairness.getTrucksBelowQuota trucks in
  let eligible :=
    filter (fun t => Truck.active t && belowQuotaP t) trucks in
  Permutation out eligible /\
  (forall t, In t out <->
             In t trucks /\ Truck.active t = true /\
             (Truck.weeklyLoads t < Truck.minWeeklyLoads t)%Z) /\
  StronglySorted
    (fun a b => (Truck.weeklyLoads a <= Truck.weeklyLoads b)%Z) out /\
  (forall w : Z,
      filter (fun t => (Truck.weeklyLoads t =? w)%Z) out =
      filter (fun t => (Truck.weeklyLoads t =? w)%Z) eligible).
Proof.
  cbv zeta. unfold Fairness.getTrucksBelowQuota.
  set (cmp := fun a b : Truck.t =>
                (Truck.weeklyLoads a - Truck.weeklyLoads b)%Z).
  set (eligible := filter _ trucks).
  split; [apply sort_perm|]. split; [|split].
  - intros t. rewrite sort_In. unfold eligible. rewrite filter_In.
    rewrite andb_true_iff. unfold belowQuotaP. rewrite Z.ltb_lt. tauto.
  - apply StronglySorted_weaken
      with (R := fun a b => (cmp a b <= 0)%Z) (P := fun _ => True).
    + intros a b _ _ H. unfold cmp in H. lia.
    + apply Forall_forall. trivial.
    + apply (sort_sorted cmp); unfold cmp; intros; lia.
  - intros w. apply sort_filter. intros a b Ha Hb.
    apply Z.eqb_eq in Ha, Hb. unfold cmp. lia.
Qed.

(** ** Candidate ranking *)


Lemma suitableCompare_le (a b : Truck.t) :
  (Fairness.suitableCompare a b <= 0)%Z <->
  (Fairness.getLoadsNeededForQuota b < Fairness.getLoadsNeededForQuota a)%Z \/
  (Fairness.getLoadsNeededForQuota a = Fairness.getLoadsNeededForQuota b /\
   (Truck.weeklyLoads a <= Truck.weeklyLoads b)%Z).
Proof.
  unfold Fairness.suitableCompare. cbv zeta.
  destruct (Z.eqb_spec (Fairness.getLoadsNeededForQuota a)
                       (Fairness.getLoadsNeededForQuota b)); simpl; lia.
Qed.


(** ** Validation of an assignment batch *)

Section ValidationFacts.

Variable numberToString : Q -> string.

Local Abbreviation step := (Fairness.validateStep numberToString).
Local Abbreviation perPair := (Fairness.pairErrors numberToString).
Local Abbreviation validate := (Fairness.validateAssignments numberToString).

Lemma validateStep_app trucks loads errs a :
  step trucks loads errs a = errs ++ perPair trucks loads a.
Proof.
  unfold Fairness.pairErrors, Fairness.validateStep. cbv zeta.
  destruct (find _ loads) as [load|]; [|reflexivity].
  destruct (find _ trucks) as [truck|]; [|reflexivity].
  destruct (negb (Truck.active truck));
    destruct (Qgt_bool (Load.sizeTons load) (Truck.capacityTons truck));
    destruct (negb (LoadStatus_eqb (Load.status load) unassigned));
    cbn [app]; rewrite <- ?app_assoc; cbn [app];
    rewrite ?app_nil_r; reflexivity.
Qed.

Lemma fold_validateStep trucks loads batch errs :
  fold_left (step trucks loads) batch errs =
  errs ++ flat_map (perPair trucks loads) batch.
Proof.
  revert errs. induction batch as [|a rest IH]; intros errs; simpl.
  - now rewrite app_nil_r.
  - rewrite IH, validateStep_app. now rewrite app_assoc.
Qed.

(** The pairs are checked one by one: the errors of a batch are the errors
    of its pairs, in order. *)
Lemma validateAssignments_errors trucks loads batch :
  errors (validate batch trucks loads) =
  flat_map (perPair trucks loads) batch.
Proof.
  unfold Fairness.validateAssignments. cbn [errors].
  now rewrite fold_validateStep.
Qed.

Lemma validateAssignments_valid trucks loads batch :
  valid (validate batch trucks loads) =
  (length (errors (validate batch trucks loads)) =? 0)%nat.
Proof. reflexivity. Qed.


Lemma Qgt_bool_false (a b : Q) : Qgt_bool a b = false <-> (a <= b)%Q.
Proof.
  unfold Qgt_bool. rewrite Qle_alt.
  destruct (a ?= b)%Q; simpl; split; congruence.
Qed.

Lemma pairErrors_acceptable trucks loads a :
  pairAcceptable trucks loads a -> perPair trucks loads a = [].
Proof.
  intros (load & truck & Hl & Ht & Hact & Hcap & Hst).
  unfold Fairness.pairErrors, Fairness.validateStep. cbv zeta.
  rewrite Hl, Ht, Hact, Hst.
  apply Qgt_bool_false in Hcap. rewrite Hcap. reflexivity.
Qed.

End ValidationFacts.

Section ValidationMore.

Variable numberToString : Q -> string.

Local Abbreviation perPair := (Fairness.pairErrors numberToString).
Local Abbreviation validate := (Fairness.validateAssignments numberToString).

Lemma pairErrors_nil_acceptable trucks loads a :
  perPair trucks loads a = [] -> pairAcceptable trucks loads a.
Proof.
  unfold Fairness.pairErrors, Fairness.validateStep, pairAcceptable.
  cbv zeta.
  destruct (find _ loads) as [load|]; [|discriminate].
  destruct (find _ trucks) as [truck|]; [|discriminate].
  destruct (Truck.active truck) eqn:Hact;
    destruct (Qgt_bool (Load.sizeTons load) (Truck.capacityTons truck)) eqn:Hcap;
    destruct (Load.status load) eqn:Hst; cbn; try discriminate.
  intros _. exists load, truck. repeat split; try assumption.
  now apply Qgt_bool_false.
Qed.

Lemma flat_map_nil {A B : Type} (f : A -> list B) (l : list A) :
  flat_map f l = [] <-> forall x, In x l -> f x = [].
Proof.
  induction l as [|x xs IH]; simpl.
  - split; [intros _ y [] | reflexivity].
  - split.
    + intros H. apply app_eq_nil in H. destruct H as [Hx Hxs].
      intros y [<-|Hy]; [exact Hx | now apply IH].
    + intros H. rewrite (H x (or_introl eq_refl)). apply IH.
      intros y Hy. apply H. now right.
Qed.

Lemma valid_true_iff trucks loads batch :
  valid (validate batch trucks loads) = true <->
  errors (validate batch trucks loads) = [].
Proof.
  rewrite validateAssignments_valid.
  destruct (errors _); simpl; split; congruence.
Qed.

Lemma pairErrors_length trucks loads a :
  (length (perPair trucks loads a) <= 3)%nat.
Proof.
  unfold Fairness.pairErrors, Fairness.validateStep. cbv zeta.
  destruct (find _ loads) as [load|]; [|simpl; lia].
  destruct (find _ trucks) as [truck|]; [|simpl; lia].
  destruct (negb (Truck.active truck));
    destruct (Qgt_bool (Load.sizeTons load) (Truck.capacityTons truck));
    destruct (negb (LoadStatus_eqb (Load.status load) unassigned));
    simpl; lia.
Qed.

End ValidationMore.

Lemma validateAssignments_valid_iff_acceptable_aux
      (numberToString : Q -> string) (a : Assignment.t)
      (trucks : list Truck.t) (loads : list Load.t) :
  valid (Fairness.validateAssignments numberToString [a] trucks loads) = true
  <-> pairAcceptable trucks loads a.
Proof.
  rewrite valid_true_iff, validateAssignments_errors. simpl.
  rewrite app_nil_r. split.
  - apply pairErrors_nil_acceptable.
  - apply pairErrors_acceptable.
Qed.

(** C7. The [valid] flag says that the error list is empty, and the empty
    batch is valid with no errors whatever the trucks and loads are. *)
Theorem validateAssignments_valid_iff_no_errors
        (numberToString : Q -> string) (trucks : list Truck.t)
        (loads : list Load.t) :
  (forall batch,
      let r := Fairness.validateAssignments numberToString batch trucks loads in
      (valid r = true <-> errors r = []) /\
      (valid r = false <-> errors r <> [])) /\
  Fairness.validateAssignments numberToString [] trucks loads
  = {| valid := true; errors := [] |}.
Proof.
  split; [|reflexivity].
  intros batch. cbv zeta. rewrite validateAssignments_valid.
  destruct (errors _) as [|e es]; simpl.
  - repeat split; congruence.
  - repeat split; congruence.
Qed.

(** C4, as the program behaves: there is no duplicate-assignment rule.
    Every pair is checked on its own against the trucks and the loads:
    the errors of a batch are the errors of its pairs validated one by
    one, and the batch is valid with no errors exactly when each pair
    references an existing unassigned load and an existing active truck of
    sufficient capacity, also when one [loadId] occurs in several pairs. *)
Theorem validateAssignments_pairwise
        (numberToString : Q -> string) (batch : list Assignment.t)
        (trucks : list Truck.t) (loads : list Load.t) :
  (Fairness.validateAssignments numberToString batch trucks loads
   = {| valid := true; errors := [] |}
   <-> forall a, In a batch -> pairAcceptable trucks loads a) /\
  errors (Fairness.validateAssignments numberToString batch trucks loads) =
  flat_map
    (fun a => errors (Fairness.validateAssignments numberToString [a]
                        trucks loads))
    batch.
Proof.
  split.
  - split.
    + intros E a Ha. apply (pairErrors_nil_acceptable numberToString).
      apply (f_equal errors) in E. cbn [errors] in E.
      rewrite validateAssignments_errors in E.
      exact (proj1 (flat_map_nil _ _) E a Ha).
    + intros H.
      assert (E : errors (Fairness.validateAssignments numberToString batch
                            trucks loads) = []).
      { rewrite validateAssignments_errors. apply flat_map_nil.
        intros a Ha. apply pairErrors_acceptable. now apply H. }
      unfold Fairness.validateAssignments in *. cbn [errors] in E.
      now rewrite E.
  - rewrite validateAssignments_errors. apply flat_map_ext. intros a.
    rewrite validateAssignments_errors. simpl. now rewrite app_nil_r.
Qed.

Lemma duplicateBatch_acceptable :
  forall a, In a duplicateBatch -> pairAcceptable testTrucks testLoads a.
Proof.
  intros a [<-|[<-|[]]].
  - exists (loadWith "L-1001" 8 unassigned), (truckWith "T-001" 18 2 true).
    repeat split; try reflexivity. simpl. unfold Qle. simpl. lia.
  - exists (loadWith "L-1001" 8 unassigned), (truckWith "T-002" 10 2 true).
    repeat split; try reflexivity. simpl. unfold Qle. simpl. lia.
Defined.

Lemma validateAssignments_pairwise_witness :
  (forall a, In a duplicateBatch -> pairAcceptable testTrucks testLoads a) /\
  Fairness.validateAssignments decimalTons duplicateBatch testTrucks testLoads
  = {| valid := true; errors := [] |} /\
  ~ (forall a, In a [Assignment.mk "L-1003" "T-003"] ->
               pairAcceptable testTrucks testLoads a).
Proof.
  split; [exact duplicateBatch_acceptable|]. split.
  - exact (proj2 (proj1 (validateAssignments_pairwise decimalTons
             duplicateBatch testTrucks testLoads))
             duplicateBatch_acceptable).
  - intros H.
    apply (proj2 (proj1 (validateAssignments_pairwise decimalTons
             [Assignment.mk "L-1003" "T-003"] testTrucks testLoads))) in H.
    vm_compute in H. discriminate H.
Defined.

(** C4, as stated, fails: load L-1001 is unassigned and is proposed for the
    two different, existing, active trucks T-001 (18 tons) and T-002
    (10 tons), each large enough for its 8 tons; the batch is reported
    valid, with no error for the duplicated load. *)
Lemma validateAssignments_accepts_duplicate_load :
  duplicateBatch =
    [Assignment.mk "L-1001" "T-001"; Assignment.mk "L-1001" "T-002"] /\
  find (fun l => (Load.loadId l =? "L-1001")%string) testLoads
    = Some (loadWith "L-1001" 8 unassigned) /\
  find (fun t => (Truck.truckId t =? "T-001")%string) testTrucks
    = Some (truckWith "T-001" 18 2 true) /\
  find (fun t => (Truck.truckId t =? "T-002")%string) testTrucks
    = Some (truckWith "T-002" 10 2 true) /\
  valid (Fairness.validateAssignments decimalTons duplicateBatch
           testTrucks testLoads) = true /\
  errors (Fairness.validateAssignments decimalTons duplicateBatch
            testTrucks testLoads) = [].
Proof.
  repeat split; vm_compute; reflexivity.
Qed.



(** ** Lookup by identifier *)

Section FirstMatch.

Context {A : Type} (key : A -> string).

Lemma find_skip (p : A -> bool) (pre : list A) (x : A) (post : list A) :
  p x = false -> find p (pre ++ x :: post) = find p (pre ++ post).
Proof.
  intros Hx. induction pre as [|y ys IH]; simpl.
  - now rewrite Hx.
  - now rewrite IH.
Qed.

Lemma find_shadowed (k : string) (pre : list A) (x : A) (post : list A) :
  (exists x0, In x0 pre /\ key x0 = key x) ->
  find (fun y => (key y =? k)%string) (pre ++ x :: post) =
  find (fun y => (key y =? k)%string) (pre ++ post).
Proof.
  induction pre as [|y ys IH]; intros (x0 & Hin & Hkey).
  - destruct Hin.
  - simpl. destruct (String.eqb_spec (key y) k) as [Hy|Hy]; [reflexivity|].
    destruct Hin as [->|Hin].
    + apply (find_skip (fun y => (key y =? k)%string)).
      apply String.eqb_neq. congruence.
    + apply IH. now exists x0.
Qed.

Lemma find_filter_keeps (p q : A -> bool) (l : list A) :
  (forall y, p y = true -> q y = true) ->
  find p (filter q l) = find p l.
Proof.
  intros H. induction l as [|y ys IH]; simpl; [reflexivity|].
  destruct (q y) eqn:Qy; simpl.
  - now rewrite IH.
  - destruct (p y) eqn:Py; [|exact IH].
    rewrite (H y Py) in Qy. discriminate.
Qed.

Lemma find_keepFirst (k : string) (l : list A) :
  find (fun y => (key y =? k)%string) (keepFirst key l) =
  find (fun y => (key y =? k)%string) l.
Proof.
  induction l as [|x xs IH]; simpl; [reflexivity|].
  destruct (String.eqb_spec (key x) k) as [Hx|Hx]; [reflexivity|].
  rewrite find_filter_keeps; [exact IH|].
  intros y Hy. apply String.eqb_eq in Hy.
  apply negb_true_iff, String.eqb_neq. congruence.
Qed.

End FirstMatch.

(** The validation reads the two collections through [find] only. *)
Lemma validateAssignments_ext (numberToString : Q -> string)
      (batch : list Assignment.t) (trucks trucks' : list Truck.t)
      (loads loads' : list Load.t) :
  (forall k, find (fun t => (Truck.truckId t =? k)%string) trucks =
             find (fun t => (Truck.truckId t =? k)%string) trucks') ->
  (forall k, find (fun l => (Load.loadId l =? k)%string) loads =
             find (fun l => (Load.loadId l =? k)%string) loads') ->
  Fairness.validateAssignments numberToString batch trucks loads =
  Fairness.validateAssignments numberToString batch trucks' loads'.
Proof.
  intros Ht Hl. unfold Fairness.validateAssignments.
  assert (E : forall errs,
             fold_left (Fairness.validateStep numberToString trucks loads)
                       batch errs =
             fold_left (Fairness.validateStep numberToString trucks' loads')
                       batch errs).
  { induction batch as [|a rest IH]; intros errs; [reflexivity|].
    simpl. rewrite IH. f_equal.
    unfold Fairness.validateStep. now rewrite Ht, Hl. }
  now rewrite E.
Qed.

Lemma find_first_match {A : Type} (p : A -> bool) (pre : list A) (x : A)
      (post : list A) :
  (forall y, In y pre -> p y = false) -> p x = true ->
  find p (pre ++ x :: post) = Some x.
Proof.
  intros Hpre Hx. induction pre as [|y ys IH]; simpl.
  - now rewrite Hx.
  - rewrite (Hpre y (or_introl eq_refl)). apply IH.
    intros z Hz. apply Hpre. now right.
Qed.

(** The errors of a pair whose lookups give [truck] and [load]. *)
Lemma pairErrors_checksAgainst (numberToString : Q -> string)
      (trucks : list Truck.t) (loads : list Load.t) (a : Assignment.t)
      (truck : Truck.t) (load : Load.t) :
  find (fun l => (Load.loadId l =? Assignment.loadId a)%string) loads
    = Some load ->
  find (fun t => (Truck.truckId t =? Assignment.truckId a)%string) trucks
    = Some truck ->
  Fairness.pairErrors numberToString trucks loads a =
  checksAgainst numberToString truck load a.
Proof.
  intros Hl Ht. unfold Fairness.pairErrors, Fairness.validateStep,
    checksAgainst. cbv zeta. rewrite Hl, Ht.
  destruct (Truck.active truck);
    destruct (Qgt_bool (Load.sizeTons load) (Truck.capacityTons truck));
    destruct (Load.status load); reflexivity.
Qed.

(** C10. Lookup by identifier takes the first matching record.  A pair is
    checked against the first truck and the first load that carry its
    identifiers: validated alone it yields exactly the messages of the
    three checks made on these two records, and in any batch these
    messages are among the errors.  Records that follow another record
    with the same identifier have no effect: the result is the result on
    the collections reduced to the first record of every identifier, and
    a truck (or load) whose identifier already occurs earlier in its
    collection can be removed without changing the result. *)
Theorem validateAssignments_first_match
        (numberToString : Q -> string) (batch : list Assignment.t) :
  (forall trucks loads,
      Fairness.validateAssignments numberToString batch trucks loads =
      Fairness.validateAssignments numberToString batch
        (keepFirst Truck.truckId trucks) (keepFirst Load.loadId loads)) /\
  (forall pre t post loads,
      (exists t0, In t0 pre /\ Truck.truckId t0 = Truck.truckId t) ->
      Fairness.validateAssignments numberToString batch
        (pre ++ t :: post) loads =
      Fairness.validateAssignments numberToString batch
        (pre ++ post) loads) /\
  (forall trucks pre l post,
      (exists l0, In l0 pre /\ Load.loadId l0 = Load.loadId l) ->
      Fairness.validateAssignments numberToString batch
        trucks (pre ++ l :: post) =
      Fairness.validateAssignments numberToString batch
        trucks (pre ++ post)) /\
  (forall a preT t postT preL l postL,
      (forall t0, In t0 preT -> Truck.truckId t0 <> Assignment.truckId a) ->
      Truck.truckId t = Assignment.truckId a ->
      (forall l0, In l0 preL -> Load.loadId l0 <> Assignment.loadId a) ->
      Load.loadId l = Assignment.loadId a ->
      let trucks := preT ++ t :: postT in
      let loads := preL ++ l :: postL in
      Fairness.validateAssignments numberToString [a] trucks loads =
        {| valid := (length (checksAgainst numberToString t l a) =? 0)%nat;
           errors := checksAgainst numberToString t l a |} /\
      (In a batch ->
       forall e, In e (checksAgainst numberToString t l a) ->
         In e (errors (Fairness.validateAssignments numberToString batch
                         trucks loads)))).
Proof.
  split; [|split; [|split]].
  - intros trucks loads. apply validateAssignments_ext; intros k;
      symmetry; apply find_keepFirst.
  - intros pre t post loads H. apply validateAssignments_ext; intros k.
    + now apply find_shadowed.
    + reflexivity.
  - intros trucks pre l post H. apply validateAssignments_ext; intros k.
    + reflexivity.
    + now apply find_shadowed.
  - intros a preT t postT preL l postL HpreT Ht HpreL Hl. cbv zeta.
    assert (Ft : find (fun t => (Truck.truckId t =?
                                 Assignment.truckId a)%string)
                      (preT ++ t :: postT) = Some t).
    { apply find_first_match.
      - intros y Hy. apply String.eqb_neq. now apply HpreT.
      - now apply String.eqb_eq. }
    assert (Fl : find (fun l => (Load.loadId l =?
                                 Assignment.loadId a)%string)
                      (preL ++ l :: postL) = Some l).
    { apply find_first_match.
      - intros y Hy. apply String.eqb_neq. now apply HpreL.
      - now apply String.eqb_eq. }
    pose proof (pairErrors_checksAgainst numberToString _ _ a t l Fl Ft)
      as Hpair.
    split.
    + unfold Fairness.validateAssignments. cbn [fold_left].
      fold (Fairness.pairErrors numberToString (preT ++ t :: postT)
              (preL ++ l :: postL) a).
      now rewrite Hpair.
    + intros Hin e He. rewrite validateAssignments_errors.
      apply in_flat_map. exists a. split; [exact Hin|].
      now rewrite Hpair.
Qed.

Lemma validateAssignments_first_match_witness :
  let a := Assignment.mk "L-1002" "T-001" in
  let good := truckWith "T-001" 18 2 true in
  (* the bad record is shadowed: no effect *)
  Fairness.validateAssignments decimalTons [a]
    ([good] ++ shadowedTruck :: [truckWith "T-002" 10 2 true]) testLoads =
  Fairness.validateAssignments decimalTons [a]
    ([good] ++ [truckWith "T-002" 10 2 true]) testLoads /\
  Fairness.validateAssignments decimalTons [a]
    ([] ++ good :: [shadowedTruck]) ([loadWith "L-1001" 8 unassigned] ++
                                     loadWith "L-1002" 15 unassigned :: []) =
  {| valid := true; errors := [] |} /\
  (* the bad record is first: it is the one that is checked *)
  Fairness.validateAssignments decimalTons [a]
    ([] ++ shadowedTruck :: [good]) ([loadWith "L-1001" 8 unassigned] ++
                                     loadWith "L-1002" 15 unassigned :: []) =
  {| valid := false;
     errors := ["Truck T-001 is inactive";
                "Load L-1002 (15T) exceeds truck T-001 capacity (5T)"]%string |}.
Proof.
  cbv zeta. split; [|split].
  - refine (proj1 (proj2
      (validateAssignments_first_match decimalTons
         [Assignment.mk "L-1002" "T-001"]))
      [truckWith "T-001" 18 2 true] shadowedTruck
      [truckWith "T-002" 10 2 true] testLoads _).
    exists (truckWith "T-001" 18 2 true). split.
    + simpl. auto.
    + reflexivity.
  - refine (proj1 (proj2 (proj2 (proj2
      (validateAssignments_first_match decimalTons
         [Assignment.mk "L-1002" "T-001"])))
      (Assignment.mk "L-1002" "T-001")
      [] (truckWith "T-001" 18 2 true) [shadowedTruck]
      [loadWith "L-1001" 8 unassigned] (loadWith "L-1002" 15 unassigned) []
      _ _ _ _)).
    + intros t0 [].
    + reflexivity.
    + intros l0 [<-|[]]. simpl. discriminate.
    + reflexivity.
  - refine (proj1 (proj2 (proj2 (proj2
      (validateAssignments_first_match decimalTons
         [Assignment.mk "L-1002" "T-001"])))
      (Assignment.mk "L-1002" "T-001")
      [] shadowedTruck [truckWith "T-001" 18 2 true]
      [loadWith "L-1001" 8 unassigned] (loadWith "L-1002" 15 unassigned) []
      _ _ _ _)).
    + intros t0 [].
    + reflexivity.
    + intros l0 [<-|[]]. simpl. discriminate.
    + reflexivity.
Defined.

(** ** The cases of the test suite, replayed on the model *)

Example metrics_scenarioA :
  Fairness.calculateFairnessMetrics scenarioA =
  {| totalTrucks := 2; trucksAtQuota := 0; trucksBelowQuota := 2;
     trucksAboveQuota := 0; fairnessPercentage := 0%float;
     averageLoadsPerTruck := 1.5%float |}.
Proof. vm_compute. reflexivity. Qed.

Example average_rounds_to_one_decimal :
  averageLoadsPerTruck
    (Fairness.calculateFairnessMetrics
       (map (fun wl => createTruck wl true) [2; 3; 3]%Z))
  = (27 / 10)%float.
Proof. vm_compute. reflexivity. Qed.

Example getTrucksBelowQuota_most_underserved_first :
  map Truck.truckId
      (Fairness.getTrucksBelowQuota
         [truckWith "T-001" 18 2 true; truckWith "T-002" 18 0 true;
          truckWith "T-003" 18 1 true; truckWith "T-004" 18 0 false;
          truckWith "T-005" 18 3 true])
  = ["T-002"; "T-003"; "T-001"]%string.
Proof. vm_compute. reflexivity. Qed.

Example findSuitableTrucks_prioritizes_need :
  map Truck.truckId
      (Fairness.findSuitableTrucks (loadWith "L-1001" 10 unassigned)
         [truckWith "T-001" 18 3 true; truckWith "T-002" 18 0 true;
          truckWith "T-003" 18 1 true])
  = ["T-002"; "T-003"; "T-001"]%string.
Proof. vm_compute. reflexivity. Qed.

Example findSuitableTrucks_then_fewer_loads :
  map Truck.truckId
      (Fairness.findSuitableTrucks (loadWith "L-1001" 10 unassigned)
         [truckWith "T-001" 18 4 true; truckWith "T-002" 18 3 true;
          truckWith "T-003" 18 5 true])
  = ["T-002"; "T-001"; "T-003"]%string.
Proof. vm_compute. reflexivity. Qed.

Example findSuitableTrucks_capacity_boundary :
  map Truck.truckId
      (Fairness.findSuitableTrucks (loadWith "L-1001" 18 unassigned)
         [truckWith "T-001" 10 2 true; truckWith "T-002" 18 2 true;
          truckWith "T-003" 20 2 false])
  = ["T-002"]%string.
Proof. vm_compute. reflexivity. Qed.

Example validateAssignments_collects_multiple_errors :
  Fairness.validateAssignments decimalTons
    [Assignment.mk "L-9999" "T-001"; Assignment.mk "L-1002" "T-002";
     Assignment.mk "L-1003" "T-001"; Assignment.mk "L-1001" "T-999";
     Assignment.mk "L-1001" "T-003"]
    testTrucks testLoads
  = {| valid := false;
       errors :=
         ["Load L-9999 not found";
          "Load L-1002 (15T) exceeds truck T-002 capacity (10T)";
          "Load L-1003 is already assigned";
          "Truck T-999 not found";
          "Truck T-003 is inactive"]%string |}.
Proof. vm_compute. reflexivity. Qed.

(** * Further properties of the engine *)

(** ** Need for quota *)

(** X1. The number of loads still needed is never negative; it is zero
    exactly for an inactive truck or a truck at or above quota; and for an
    active truck whose loads and quota are counts of at most [2^53] (where
    the subtraction and the addition of the program are exact) the current
    loads plus the needed loads are the larger of the current loads and
    the quota. *)
Theorem getLoadsNeededForQuota_closes_gap (t : Truck.t) :
  (0 <= Fairness.getLoadsNeededForQuota t)%Z /\
  (Fairness.getLoadsNeededForQuota t = 0%Z <->
   Truck.active t = false \/
   (Truck.minWeeklyLoads t <= Truck.weeklyLoads t)%Z) /\
  (Truck.active t = true ->
   exactCount (Truck.weeklyLoads t) ->
   exactCount (Truck.minWeeklyLoads t) ->
   exactCount (Fairness.getLoadsNeededForQuota t) /\
   (Truck.weeklyLoads t + Fairness.getLoadsNeededForQuota t)%Z =
   Z.max (Truck.weeklyLoads t) (Truck.minWeeklyLoads t) /\
   exactCount (Truck.weeklyLoads t + Fairness.getLoadsNeededForQuota t)).
Proof.
  unfold Fairness.getLoadsNeededForQuota, Math.max, exactCount.
  destruct (Truck.active t); simpl.
  - split; [lia|]. split; [|lia]. split.
    + intros H. right. lia.
    + intros [H|H]; [discriminate | lia].
  - split; [lia|]. split; [|discriminate]. split.
    + intros _. now left.
    + reflexivity.
Qed.

Lemma getLoadsNeededForQuota_closes_gap_witness :
  (Truck.weeklyLoads (createTruck 1 true)
   + Fairness.getLoadsNeededForQuota (createTruck 1 true))%Z = 3%Z.
Proof.
  refine (proj1 (proj2 (proj2 (proj2
    (getLoadsNeededForQuota_closes_gap (createTruck 1 true)))
    eq_refl _ _))); unfold exactCount; simpl; lia.
Defined.

(** X2. A truck of the fleet is listed by [getTrucksBelowQuota] exactly
    when [getLoadsNeededForQuota] gives it a positive number. *)
Theorem getTrucksBelowQuota_iff_needs_loads (trucks : list Truck.t)
        (t : Truck.t) :
  In t (Fairness.getTrucksBelowQuota trucks) <->
  In t trucks /\ (0 < Fairness.getLoadsNeededForQuota t)%Z.
Proof.
  unfold Fairness.getTrucksBelowQuota. rewrite sort_In, filter_In.
  unfold Fairness.getLoadsNeededForQuota, Math.max, belowQuotaP.
  rewrite andb_true_iff, Z.ltb_lt.
  destruct (Truck.active t); simpl; split; intros [H1 H2];
    (split; [exact H1|]); try lia; try (split; [reflexivity|lia]).
Qed.

(** X3. The [trucksBelowQuota] count of the metrics is the length of the
    list returned by [getTrucksBelowQuota]. *)
Theorem trucksBelowQuota_counts_getTrucksBelowQuota (trucks : list Truck.t) :
  trucksBelowQuota (Fairness.calculateFairnessMetrics trucks) =
  length (Fairness.getTrucksBelowQuota trucks).
Proof.
  unfold Fairness.getTrucksBelowQuota.
  rewrite (Permutation_length (sort_perm _ _)).
  unfold Fairness.calculateFairnessMetrics. rewrite <- filter_filter.
  destruct (filter Truck.active trucks) as [|t ts]; reflexivity.
Qed.

(** ** Ranking twice *)

Lemma sort_sorted_id {A : Type} (compareFn : A -> A -> Z) (l : list A) :
  StronglySorted (fun a b => (compareFn a b <= 0)%Z) l ->
  Array.sort compareFn l = l.
Proof.
  induction 1 as [|x xs Hs IH Hx]; [reflexivity|].
  cbn [Array.sort fold_right]. fold (Array.sort compareFn xs). rewrite IH.
  destruct xs as [|y ys]; [reflexivity|].
  cbn [Array.insert]. inversion Hx as [|? ? Hxy _]; subst.
  apply Z.leb_le in Hxy. now rewrite Hxy.
Qed.

Lemma filter_all_true {A : Type} (p : A -> bool) (l : list A) :
  (forall x, In x l -> p x = true) -> filter p l = l.
Proof.
  induction l as [|x xs IH]; intros H; simpl; [reflexivity|].
  rewrite (H x (or_introl eq_refl)). f_equal. apply IH.
  intros y Hy. apply H. now right.
Qed.

Lemma suitableCompare_total (a b : Truck.t) :
  ~ (Fairness.suitableCompare a b <= 0)%Z ->
  (Fairness.suitableCompare b a <= 0)%Z.
Proof.
  intros H. rewrite (suitableCompare_le a b) in H.
  apply (suitableCompare_le b a). lia.
Qed.

Lemma suitableCompare_trans (a b c : Truck.t) :
  (Fairness.suitableCompare a b <= 0)%Z ->
  (Fairness.suitableCompare b c <= 0)%Z ->
  (Fairness.suitableCompare a c <= 0)%Z.
Proof.
  intros Hab Hbc. apply suitableCompare_le in Hab, Hbc.
  apply suitableCompare_le. lia.
Qed.

(** X4. Both rankings are idempotent: ranking the result again, for the
    same load, returns the result unchanged. *)
Theorem rankings_idempotent (load : Load.t) (trucks : list Truck.t) :
  Fairness.getTrucksBelowQuota (Fairness.getTrucksBelowQuota trucks) =
  Fairness.getTrucksBelowQuota trucks /\
  Fairness.findSuitableTrucks load (Fairness.findSuitableTrucks load trucks) =
  Fairness.findSuitableTrucks load trucks.
Proof.
  split.
  - unfold Fairness.getTrucksBelowQuota.
    set (p := fun t => Truck.active t && belowQuotaP t).
    set (cmp := fun a b : Truck.t =>
                  (Truck.weeklyLoads a - Truck.weeklyLoads b)%Z).
    rewrite (filter_all_true p (Array.sort cmp (filter p trucks))).
    + apply sort_sorted_id. apply sort_sorted; unfold cmp; intros; lia.
    + intros x Hx. apply sort_In, filter_In in Hx. apply Hx.
  - unfold Fairness.findSuitableTrucks.
    set (p := fun t => Fairness.canLoadFitInTruck load t).
    rewrite (filter_all_true p
               (Array.sort Fairness.suitableCompare (filter p trucks))).
    + apply sort_sorted_id. apply sort_sorted.
      * exact suitableCompare_total.
      * exact suitableCompare_trans.
    + intros x Hx. apply sort_In, filter_In in Hx. apply Hx.
Qed.

(** ** Candidates *)

(** X5. [findSuitableTrucks] returns the empty list exactly when no truck
    of the fleet is active with a capacity of at least the size of the
    load, and otherwise as many trucks as the fleet has of that kind. *)
Theorem findSuitableTrucks_empty_iff (load : Load.t) (trucks : list Truck.t) :
  (Fairness.findSuitableTrucks load trucks = [] <->
   forall t, In t trucks -> Fairness.canLoadFitInTruck load t = false) /\
  length (Fairness.findSuitableTrucks load trucks) =
  length (filter (fun t => Fairness.canLoadFitInTruck load t) trucks).
Proof.
  unfold Fairness.findSuitableTrucks. split.
  - split.
    + intros E t Ht.
      destruct (Fairness.canLoadFitInTruck load t) eqn:Hfit; [|reflexivity].
      assert (Hin : In t (Array.sort Fairness.suitableCompare
                            (filter (fun t => Fairness.canLoadFitInTruck load t)
                                    trucks))).
      { apply sort_In, filter_In. now split. }
      rewrite E in Hin. destruct Hin.
    + intros H.
      assert (E : filter (fun t => Fairness.canLoadFitInTruck load t) trucks
                  = []).
      { induction trucks as [|t ts IH]; [reflexivity|]. simpl.
        rewrite (H t (or_introl eq_refl)). apply IH.
        intros u Hu. apply H. now right. }
      now rewrite E.
  - apply Permutation_length, sort_perm.
Qed.





(** ** More on validation *)

(** X7. A batch is reported valid exactly when each of its pairs, taken
    alone, references an existing load with status [unassigned] and an
    existing active truck whose capacity is at least the size of the
    load. *)
Theorem validateAssignments_valid_iff_acceptable
        (numberToString : Q -> string) (batch : list Assignment.t)
        (trucks : list Truck.t) (loads : list Load.t) :
  valid (Fairness.validateAssignments numberToString batch trucks loads) = true
  <-> forall a, In a batch -> pairAcceptable trucks loads a.
Proof.
  rewrite valid_true_iff, validateAssignments_errors, flat_map_nil.
  split; intros H a Ha.
  - apply (pairErrors_nil_acceptable numberToString). now apply H.
  - apply pairErrors_acceptable. now apply H.
Qed.

(** X8. Validating two batches one after the other is validating their
    concatenation: the errors are concatenated, and the whole is valid
    exactly when both parts are. *)
Theorem validateAssignments_app
        (numberToString : Q -> string) (batch1 batch2 : list Assignment.t)
        (trucks : list Truck.t) (loads : list Load.t) :
  let v := Fairness.validateAssignments numberToString in
  errors (v (batch1 ++ batch2) trucks loads) =
    errors (v batch1 trucks loads) ++ errors (v batch2 trucks loads) /\
  valid (v (batch1 ++ batch2) trucks loads) =
    valid (v batch1 trucks loads) && valid (v batch2 trucks loads).
Proof.
  cbv zeta.
  assert (E : errors (Fairness.validateAssignments numberToString
                        (batch1 ++ batch2) trucks loads) =
              errors (Fairness.validateAssignments numberToString
                        batch1 trucks loads) ++
              errors (Fairness.validateAssignments numberToString
                        batch2 trucks loads)).
  { rewrite !validateAssignments_errors. apply flat_map_app. }
  split; [exact E|].
  rewrite !validateAssignments_valid, E.
  destruct (errors (Fairness.validateAssignments numberToString
                      batch1 trucks loads));
    destruct (errors (Fairness.validateAssignments numberToString
                        batch2 trucks loads)); reflexivity.
Qed.

(** X9. A pair contributes at most three messages, so a batch of [n]
    pairs yields at most [3 * n] errors. *)
Theorem validateAssignments_error_bound
        (numberToString : Q -> string) (batch : list Assignment.t)
        (trucks : list Truck.t) (loads : list Load.t) :
  (length (errors (Fairness.validateAssignments numberToString
                     batch trucks loads))
   <= 3 * length batch)%nat.
Proof.
  rewrite validateAssignments_errors.
  induction batch as [|a rest IH]; simpl; [lia|].
  rewrite length_app.
  pose proof (pairErrors_length numberToString trucks loads a). lia.
Qed.

(** X10. A missing record ends the checks of its pair: for an unknown
    load the only message is that the load is not found, whatever the
    truck identifier is; for a known load and an unknown truck the only
    message is that the truck is not found, whatever the size and the
    status of the load are. *)
Theorem validateAssignments_missing_record
        (numberToString : Q -> string) (a : Assignment.t)
        (trucks : list Truck.t) (loads : list Load.t) :
  (find (fun l => (Load.loadId l =? Assignment.loadId a)%string) loads = None ->
   Fairness.validateAssignments numberToString [a] trucks loads =
   {| valid := false;
      errors := [Fairness.loadNotFound (Assignment.loadId a)] |}) /\
  (find (fun l => (Load.loadId l =? Assignment.loadId a)%string) loads <> None ->
   find (fun t => (Truck.truckId t =? Assignment.truckId a)%string) trucks
     = None ->
   Fairness.validateAssignments numberToString [a] trucks loads =
   {| valid := false;
      errors := [Fairness.truckNotFound (Assignment.truckId a)] |}).
Proof.
  unfold Fairness.validateAssignments, Fairness.validateStep. simpl.
  split.
  - intros ->. reflexivity.
  - intros Hl ->. destruct (find _ loads); [reflexivity | now elim Hl].
Qed.

Lemma validateAssignments_missing_record_witness :
  Fairness.validateAssignments decimalTons
    [Assignment.mk "L-9999" "T-999"] testTrucks testLoads =
  {| valid := false; errors := ["Load L-9999 not found"%string] |} /\
  Fairness.validateAssignments decimalTons
    [Assignment.mk "L-1003" "T-999"] testTrucks testLoads =
  {| valid := false; errors := ["Truck T-999 not found"%string] |}.
Proof.
  split.
  - refine (proj1 (validateAssignments_missing_record decimalTons
      (Assignment.mk "L-9999" "T-999") testTrucks testLoads) _).
    reflexivity.
  - refine (proj2 (validateAssignments_missing_record decimalTons
      (Assignment.mk "L-1003" "T-999") testTrucks testLoads) _ _).
    + simpl. discriminate.
    + reflexivity.
Defined.

(** X11. The candidate filter and the validation agree: when the load and
    the truck are the records their identifiers look up, the proposal of
    that truck for that load is valid exactly when [canLoadFitInTruck]
    holds and the load is unassigned. *)
Theorem validateAssignments_agrees_with_canLoadFitInTruck
        (numberToString : Q -> string) (load : Load.t) (truck : Truck.t)
        (trucks : list Truck.t) (loads : list Load.t) :
  find (fun l => (Load.loadId l =? Load.loadId load)%string) loads
    = Some load ->
  find (fun t => (Truck.truckId t =? Truck.truckId truck)%string) trucks
    = Some truck ->
  (valid (Fairness.validateAssignments numberToString
            [Assignment.mk (Load.loadId load) (Truck.truckId truck)]
            trucks loads) = true
   <-> Fairness.canLoadFitInTruck load truck = true /\
       Load.status load = unassigned).
Proof.
  intros Hl Ht.
  rewrite validateAssignments_valid_iff_acceptable_aux.
  unfold pairAcceptable, Fairness.canLoadFitInTruck. cbn [Assignment.loadId
    Assignment.truckId]. rewrite Hl, Ht, andb_true_iff, Qle_bool_iff.
  split.
  - intros (l & t & El & Et & Ha & Hc & Hs).
    injection El as <-. injection Et as <-. auto.
  - intros [[Ha Hc] Hs]. exists load, truck. auto.
Qed.

Lemma validateAssignments_agrees_with_canLoadFitInTruck_witness :
  valid (Fairness.validateAssignments decimalTons
           [Assignment.mk "L-1001" "T-001"] testTrucks testLoads) = true.
Proof.
  refine (proj2 (validateAssignments_agrees_with_canLoadFitInTruck decimalTons
    (loadWith "L-1001" 8 unassigned) (truckWith "T-001" 18 2 true)
    testTrucks testLoads _ _) _).
  - reflexivity.
  - reflexivity.
  - split; vm_compute; reflexivity.
Defined.

(** * The dashboard and the load list *)

(** X12. The metrics computed inline by the dashboard are, for every
    fleet, the metrics of [calculateFairnessMetrics] in [fairness.ts]:
    the guards on the two derived fields give zero exactly where the
    engine returns its all-zero object. *)
Theorem Dashboard_metrics_is_calculateFairnessMetrics
        (trucks : list Truck.t) :
  Dashboard.metrics trucks = Fairness.calculateFairnessMetrics trucks.
Proof.
  unfold Dashboard.metrics, Fairness.calculateFairnessMetrics.
  destruct (filter Truck.active trucks) as [|t ts]; reflexivity.
Qed.

Lemma StronglySorted_app_cross {A : Type} (R : A -> A -> Prop)
      (l1 l2 : list A) :
  StronglySorted R (l1 ++ l2) ->
  forall x y, In x l1 -> In y l2 -> R x y.
Proof.
  induction l1 as [|a l1 IH]; intros Hs x y Hx Hy; [destruct Hx|].
  simpl in Hs. inversion Hs as [|? ? Hs' Ha]; subst.
  destruct Hx as [<-|Hx].
  - rewrite Forall_forall in Ha. apply Ha, in_or_app. now right.
  - now apply IH.
Qed.

(** X13. The dashboard table shows a prefix of [getTrucksBelowQuota] of
    at most ten trucks, all of them when there are ten or fewer, and no
    truck left out has fewer weekly loads than a truck shown. *)
Theorem Dashboard_trucksNeedingLoads_most_underserved
        (trucks : list Truck.t) :
  let shown := Dashboard.trucksNeedingLoads trucks in
  let ranked := Fairness.getTrucksBelowQuota trucks in
  exists hidden,
    ranked = shown ++ hidden /\
    length shown = Nat.min 10 (length ranked) /\
    (forall s h, In s shown -> In h hidden ->
                 (Truck.weeklyLoads s <= Truck.weeklyLoads h)%Z).
Proof.
  cbv zeta. unfold Dashboard.trucksNeedingLoads, Fairness.getTrucksBelowQuota.
  set (cmp := fun a b : Truck.t =>
                (Truck.weeklyLoads a - Truck.weeklyLoads b)%Z).
  set (ranked := Array.sort cmp _).
  exists (skipn 10 ranked).
  split; [symmetry; apply firstn_skipn|].
  split; [apply length_firstn|].
  intros s h Hs Hh.
  assert (Hsorted : StronglySorted (fun a b => (cmp a b <= 0)%Z)
                      (firstn 10 ranked ++ skipn 10 ranked)).
  { rewrite firstn_skipn. apply sort_sorted; unfold cmp; intros; lia. }
  pose proof (StronglySorted_app_cross _ _ _ Hsorted s h Hs Hh) as H.
  unfold cmp in H. lia.
Qed.

(** X14. The two counters of the load list split the loads: unassigned
    plus assigned is the number of loads, and the unassigned counter is
    the length of [getUnassignedLoads]. *)
Theorem LoadList_counts_partition (loads : list Load.t) :
  (LoadList.unassignedCount loads + LoadList.assignedCount loads
   = length loads)%nat /\
  LoadList.unassignedCount loads = length (Fairness.getUnassignedLoads loads).
Proof.
  split; [|reflexivity].
  unfold LoadList.unassignedCount, LoadList.assignedCount.
  induction loads as [|l ls IH]; simpl; [reflexivity|].
  destruct (LoadStatus_eqb (Load.status l) unassigned); simpl; lia.
Qed.

(** * Committing a schedule ([App.tsx]) *)

Section ReplaceFirst.

Context {A : Type}.

Lemma findIndex_replaceFirst (p : A -> bool) (f : A -> A) (l : list A) :
  match findIndex p l with
  | None => l
  | Some i =>
      match nth_error l i with
      | Some x => setAt i (f x) l
      | None => l
      end
  end = replaceFirst p f l.
Proof.
  induction l as [|x xs IH]; simpl; [reflexivity|].
  destruct (p x); [reflexivity|].
  destruct (findIndex p xs) as [i|]; simpl in *.
  - destruct (nth_error xs i); now rewrite <- IH.
  - now rewrite <- IH.
Qed.

Lemma replaceFirst_none (p : A -> bool) (f : A -> A) (l : list A) :
  find p l = None -> replaceFirst p f l = l.
Proof.
  induction l as [|x xs IH]; simpl; [reflexivity|].
  destruct (p x); [discriminate|]. intros H. now rewrite IH.
Qed.

Lemma replaceFirst_Forall2 (R : A -> A -> Prop) (p : A -> bool)
      (f : A -> A) (l : list A) :
  (forall x, R x x) -> (forall x, R x (f x)) ->
  Forall2 R l (replaceFirst p f l).
Proof.
  intros Hrefl Hf. induction l as [|x xs IH]; simpl; [constructor|].
  destruct (p x); constructor; auto.
  clear IH. induction xs; constructor; auto.
Qed.



End ReplaceFirst.

Lemma assignLoadStep_replaceFirst (trucks : list Truck.t)
      (loads : list Load.t) (a : Assignment.t) :
  App.assignLoadStep trucks loads a =
  match find (fun t => (Truck.truckId t =? Assignment.truckId a)%string)
             trucks with
  | None => loads
  | Some truck =>
      replaceFirst (fun l => (Load.loadId l =? Assignment.loadId a)%string)
                   (App.assignTo truck) loads
  end.
Proof.
  unfold App.assignLoadStep.
  destruct (find _ trucks) as [truck|].
  - rewrite <- findIndex_replaceFirst.
    destruct (findIndex _ loads); reflexivity.
  - destruct (findIndex _ loads); reflexivity.
Qed.

Lemma countLoadStep_replaceFirst (trucks : list Truck.t) (a : Assignment.t) :
  App.countLoadStep trucks a =
  replaceFirst (fun t => (Truck.truckId t =? Assignment.truckId a)%string)
               App.oneMoreLoad trucks.
Proof.
  unfold App.countLoadStep. now rewrite <- findIndex_replaceFirst.
Qed.

Lemma sameTruckMoreLoads_refl (t : Truck.t) : sameTruckMoreLoads t t.
Proof. unfold sameTruckMoreLoads. repeat split; lia. Qed.

Lemma sameTruckMoreLoads_trans (a b c : Truck.t) :
  sameTruckMoreLoads a b -> sameTruckMoreLoads b c -> sameTruckMoreLoads a c.
Proof.
  unfold sameTruckMoreLoads. intros H1 H2.
  repeat split; try (etransitivity; [apply H2 | apply H1]).
  destruct H1 as (_&_&_&_&_&_&_&H1). destruct H2 as (_&_&_&_&_&_&_&H2). lia.
Qed.

Lemma Forall2_trans_rel {A : Type} (R : A -> A -> Prop) :
  (forall a b c, R a b -> R b c -> R a c) ->
  forall l1 l2 l3, Forall2 R l1 l2 -> Forall2 R l2 l3 -> Forall2 R l1 l3.
Proof.
  intros Ht l1 l2 l3 H12. revert l3.
  induction H12; intros l3 H23; inversion H23; subst; constructor; eauto.
Qed.

Lemma Forall2_refl_rel {A : Type} (R : A -> A -> Prop) :
  (forall a, R a a) -> forall l, Forall2 R l l.
Proof. intros Hr l. induction l; constructor; auto. Qed.

Lemma scheduleTrucks_related (batch : list Assignment.t)
      (trucks : list Truck.t) :
  Forall2 sameTruckMoreLoads trucks (App.scheduleTrucks batch trucks).
Proof.
  unfold App.scheduleTrucks. revert trucks.
  induction batch as [|a rest IH]; intros trucks; simpl.
  - apply Forall2_refl_rel, sameTruckMoreLoads_refl.
  - apply Forall2_trans_rel with (l2 := App.countLoadStep trucks a).
    + exact sameTruckMoreLoads_trans.
    + rewrite countLoadStep_replaceFirst. apply replaceFirst_Forall2.
      * exact sameTruckMoreLoads_refl.
      * intros t. unfold sameTruckMoreLoads, App.oneMoreLoad. simpl.
        repeat split; lia.
    + apply IH.
Qed.

Lemma Forall2_active_length (l1 l2 : list Truck.t) :
  Forall2 sameTruckMoreLoads l1 l2 ->
  length (filter Truck.active l2) = length (filter Truck.active l1).
Proof.
  induction 1 as [|a b l1 l2 Hab _ IH]; simpl; [reflexivity|].
  destruct Hab as (_&_&_&_&_&_&Hact&_). rewrite Hact.
  destruct (Truck.active a); simpl; now rewrite IH.
Qed.

(** X15. Committing a schedule changes nothing of a truck but its weekly
    loads, which never decrease: the fleet keeps its length and order,
    every truck keeps its identifiers, contractor, size, capacity, quota
    and active flag, and the number of active trucks reported by the
    metrics is unchanged. *)
Theorem scheduleTrucks_changes_only_weeklyLoads
        (batch : list Assignment.t) (trucks : list Truck.t) :
  Forall2 sameTruckMoreLoads trucks (App.scheduleTrucks batch trucks) /\
  length (App.scheduleTrucks batch trucks) = length trucks /\
  totalTrucks (Fairness.calculateFairnessMetrics
                 (App.scheduleTrucks batch trucks)) =
  totalTrucks (Fairness.calculateFairnessMetrics trucks).
Proof.
  pose proof (scheduleTrucks_related batch trucks) as H.
  split; [exact H|]. split.
  - symmetry. exact (Forall2_length H).
  - pose proof (Forall2_active_length _ _ H) as E.
    unfold Fairness.calculateFairnessMetrics.
    destruct (filter Truck.active (App.scheduleTrucks batch trucks));
      destruct (filter Truck.active trucks); simpl in *;
      try discriminate; try reflexivity; exact E.
Qed.

Lemma replaceFirst_truckIds (p : Truck.t -> bool) (l : list Truck.t) :
  map Truck.truckId (replaceFirst p App.oneMoreLoad l) = map Truck.truckId l.
Proof.
  induction l as [|x xs IH]; simpl; [reflexivity|].
  destruct (p x); simpl; [reflexivity | now rewrite IH].
Qed.

Lemma existsb_truckId (k : string) (l : list Truck.t) :
  existsb (fun t => (Truck.truckId t =? k)%string) l =
  existsb (fun i => (i =? k)%string) (map Truck.truckId l).
Proof.
  induction l as [|x xs IH]; simpl; [reflexivity | now rewrite IH].
Qed.

Lemma pairsWithKnownTruck_truckIds (l1 l2 : list Truck.t)
      (batch : list Assignment.t) :
  map Truck.truckId l1 = map Truck.truckId l2 ->
  pairsWithKnownTruck l1 batch = pairsWithKnownTruck l2 batch.
Proof.
  intros E. unfold pairsWithKnownTruck. f_equal.
  apply filter_ext. intros a. now rewrite !existsb_truckId, E.
Qed.

Lemma totalWeeklyLoads_replaceFirst (p : Truck.t -> bool)
      (l : list Truck.t) :
  totalWeeklyLoads (replaceFirst p App.oneMoreLoad l) =
  (totalWeeklyLoads l + (if existsb p l then 1 else 0))%Z.
Proof.
  induction l as [|x xs IH]; simpl; [reflexivity|].
  destruct (p x); simpl.
  - lia.
  - rewrite IH. lia.
Qed.

(** The weekly loads of a truck rise by at most one per pair. *)
Lemma countLoadStep_bound (trucks : list Truck.t) (a : Assignment.t) :
  Forall2 (fun old new =>
             (Truck.weeklyLoads old <= Truck.weeklyLoads new
              <= Truck.weeklyLoads old + 1)%Z)
          trucks (App.countLoadStep trucks a).
Proof.
  rewrite countLoadStep_replaceFirst. apply replaceFirst_Forall2.
  - intros t. lia.
  - intros t. unfold App.oneMoreLoad. simpl. lia.
Qed.

Lemma Forall2_In_r {A : Type} (R : A -> A -> Prop) (l1 l2 : list A) (y : A) :
  Forall2 R l1 l2 -> In y l2 -> exists x, In x l1 /\ R x y.
Proof.
  induction 1 as [|a b l1 l2 Hab _ IH]; intros Hy; [destruct Hy|].
  destruct Hy as [<-|Hy].
  - exists a. split; [now left | exact Hab].
  - destruct (IH Hy) as (x & Hx & Hr). exists x. split; [now right | exact Hr].
Qed.

Lemma scheduleTrucks_room (batch : list Assignment.t) (trucks : list Truck.t) :
  roomFor (length batch) trucks ->
  roomFor 0 (App.scheduleTrucks batch trucks).
Proof.
  unfold App.scheduleTrucks. revert trucks.
  induction batch as [|a rest IH]; intros trucks Hroom; [exact Hroom|].
  cbn [fold_left]. apply IH. intros t Ht.
  destruct (Forall2_In_r _ _ _ t (countLoadStep_bound trucks a) Ht)
    as (old & Hold & Hb).
  destruct (Hroom old Hold) as [H0 H1]. cbn [length] in H1. lia.
Qed.

(** The accounting in integer arithmetic; [scheduleTrucks_room] gives the
    range in which it is the arithmetic of the program. *)
Lemma scheduleTrucks_total_exact (batch : list Assignment.t)
      (trucks : list Truck.t) :
  totalWeeklyLoads (App.scheduleTrucks batch trucks) =
  (totalWeeklyLoads trucks + Z.of_nat (pairsWithKnownTruck trucks batch))%Z.
Proof.
  unfold App.scheduleTrucks. revert trucks.
  induction batch as [|a rest IH]; intros trucks.
  - simpl. unfold pairsWithKnownTruck. simpl. lia.
  - cbn [fold_left]. rewrite IH, countLoadStep_replaceFirst.
    rewrite totalWeeklyLoads_replaceFirst.
    rewrite (pairsWithKnownTruck_truckIds _ trucks rest)
      by apply replaceFirst_truckIds.
    unfold pairsWithKnownTruck. cbn [filter].
    destruct (existsb _ trucks); cbn [length]; lia.
Qed.

(** X16. In a fleet whose weekly loads are counts that stay within
    [2^53] when every pair of the batch is added (so that each
    [weeklyLoads + 1] of the program is exact), committing a schedule
    raises the sum of the weekly loads of the fleet by the number of pairs
    whose truck identifier exists in the fleet; the loads are not
    consulted. *)
Theorem scheduleTrucks_total (batch : list Assignment.t)
        (trucks : list Truck.t) :
  roomFor (length batch) trucks ->
  totalWeeklyLoads (App.scheduleTrucks batch trucks) =
  (totalWeeklyLoads trucks + Z.of_nat (pairsWithKnownTruck trucks batch))%Z /\
  roomFor 0 (App.scheduleTrucks batch trucks).
Proof.
  intros Hroom. split; [apply scheduleTrucks_total_exact|].
  apply scheduleTrucks_room. exact Hroom.
Qed.

Lemma scheduleTrucks_total_witness :
  roomFor (length duplicateBatch) testTrucks /\
  totalWeeklyLoads (App.scheduleTrucks duplicateBatch testTrucks) =
  (totalWeeklyLoads testTrucks + 2)%Z.
Proof.
  assert (H : roomFor (length duplicateBatch) testTrucks).
  { intros t [<-|[<-|[<-|[]]]]; simpl; lia. }
  split; [exact H|].
  exact (proj1 (scheduleTrucks_total duplicateBatch testTrucks H)).
Defined.

Section ReplaceFirstNoDup.

Context {A : Type} (key : A -> string).

Lemma map_other_keys (k : string) (f : A -> A) (l : list A) :
  ~ In k (map key l) ->
  map (fun x => if (key x =? k)%string then f x else x) l = l.
Proof.
  induction l as [|x xs IH]; simpl; intros H; [reflexivity|].
  destruct (String.eqb_spec (key x) k) as [E|E].
  - elim H. now left.
  - f_equal. apply IH. intros Hin. apply H. now right.
Qed.

Lemma replaceFirst_unique_key (k : string) (f : A -> A) (l : list A) :
  NoDup (map key l) ->
  replaceFirst (fun x => (key x =? k)%string) f l =
  map (fun x => if (key x =? k)%string then f x else x) l.
Proof.
  induction l as [|x xs IH]; simpl; intros H; [reflexivity|].
  inversion H as [|? ? Hx Hxs]; subst.
  destruct (String.eqb_spec (key x) k) as [E|E].
  - f_equal. symmetry. apply map_other_keys. now rewrite <- E.
  - f_equal. now apply IH.
Qed.

End ReplaceFirstNoDup.

Lemma withMoreLoads_zero (t : Truck.t) : withMoreLoads 0 t = t.
Proof.
  destruct t. unfold withMoreLoads. simpl. f_equal. lia.
Qed.

Lemma withMoreLoads_oneMoreLoad (n : nat) (t : Truck.t) :
  withMoreLoads n (App.oneMoreLoad t) = withMoreLoads (S n) t.
Proof.
  unfold withMoreLoads, App.oneMoreLoad. simpl. f_equal. lia.
Qed.

(** The per-truck accounting in integer arithmetic, used within the range
    given by [scheduleTrucks_room]. *)
Lemma scheduleTrucks_counts_exact (batch : list Assignment.t)
      (trucks : list Truck.t) :
  NoDup (map Truck.truckId trucks) ->
  App.scheduleTrucks batch trucks =
  map (fun t => withMoreLoads (timesNamed (Truck.truckId t) batch) t) trucks.
Proof.
  unfold App.scheduleTrucks. revert trucks.
  induction batch as [|a rest IH]; intros trucks Hnd.
  - simpl. symmetry. rewrite <- (map_id trucks) at 2.
    apply map_ext. intros t. apply withMoreLoads_zero.
  - cbn [fold_left]. rewrite countLoadStep_replaceFirst.
    rewrite IH by (rewrite replaceFirst_truckIds; exact Hnd).
    rewrite (replaceFirst_unique_key Truck.truckId) by exact Hnd.
    rewrite map_map. apply map_ext. intros t.
    unfold timesNamed. cbn [filter].
    destruct (String.eqb_spec (Truck.truckId t) (Assignment.truckId a))
      as [E|E].
    + rewrite <- E. cbn [App.oneMoreLoad Truck.truckId].
      rewrite String.eqb_refl. cbn [length].
      apply withMoreLoads_oneMoreLoad.
    + destruct (String.eqb_spec (Assignment.truckId a) (Truck.truckId t));
        [congruence | reflexivity].
Qed.

(** X17. In a fleet whose truck identifiers are pairwise different and
    whose weekly loads are counts that stay within [2^53] when every pair
    of the batch is added (so that each [weeklyLoads + 1] of the program
    is exact), the commit adds to the weekly loads of every truck the
    number of pairs of the batch that name it, and changes nothing
    else. *)
Theorem scheduleTrucks_counts_each_pair (batch : list Assignment.t)
        (trucks : list Truck.t) :
  NoDup (map Truck.truckId trucks) ->
  roomFor (length batch) trucks ->
  App.scheduleTrucks batch trucks =
  map (fun t => withMoreLoads (timesNamed (Truck.truckId t) batch) t) trucks /\
  roomFor 0 (App.scheduleTrucks batch trucks).
Proof.
  intros Hnd Hroom. split.
  - now apply scheduleTrucks_counts_exact.
  - now apply scheduleTrucks_room.
Qed.

Lemma scheduleTrucks_counts_each_pair_witness :
  App.scheduleTrucks duplicateBatch testTrucks =
  [truckWith "T-001" 18 3 true;
   truckWith "T-002" 10 3 true;
   truckWith "T-003" 20 2 false].
Proof.
  refine (proj1 (scheduleTrucks_counts_each_pair duplicateBatch testTrucks
                   _ _)).
  - repeat constructor; simpl; intuition discriminate.
  - intros t [<-|[<-|[<-|[]]]]; simpl; lia.
Defined.

Lemma keptOrAssigned_trans (trucks : list Truck.t) (a b c : Load.t) :
  keptOrAssigned trucks a b -> keptOrAssigned trucks b c ->
  keptOrAssigned trucks a c.
Proof.
  intros [->|(t1 & H1 & ->)] [->|(t2 & H2 & ->)].
  - now left.
  - right. now exists t2.
  - right. now exists t1.
  - right. exists t2. split; [exact H2 | reflexivity].
Qed.

Lemma assignLoadStep_related (trucks : list Truck.t) (loads : list Load.t)
      (a : Assignment.t) :
  Forall2 (keptOrAssigned trucks) loads (App.assignLoadStep trucks loads a).
Proof.
  rewrite assignLoadStep_replaceFirst.
  destruct (find _ trucks) as [truck|] eqn:Ht.
  - apply replaceFirst_Forall2.
    + intros l. now left.
    + intros l. right. exists truck. split; [|reflexivity].
      apply find_some in Ht. apply Ht.
  - apply Forall2_refl_rel. intros l. now left.
Qed.

Lemma scheduleLoads_related (batch : list Assignment.t)
      (trucks : list Truck.t) (loads : list Load.t) :
  Forall2 (keptOrAssigned trucks) loads (App.scheduleLoads batch trucks loads).
Proof.
  unfold App.scheduleLoads. revert loads.
  induction batch as [|a rest IH]; intros loads; simpl.
  - apply Forall2_refl_rel. intros l. now left.
  - apply Forall2_trans_rel with (l2 := App.assignLoadStep trucks loads a).
    + apply keptOrAssigned_trans.
    + apply assignLoadStep_related.
    + apply IH.
Qed.

(** X18. Committing a schedule keeps the list of loads in place: the
    result has the same length and order, and every load is either
    untouched or the same load with status [assigned] and the internal
    identifier of a truck of the fleet as [assignedTruckId]; in particular
    the [loadId]s are unchanged and no load is created, removed or set
    back to [unassigned]. *)
Theorem scheduleLoads_keeps_or_assigns (batch : list Assignment.t)
        (trucks : list Truck.t) (loads : list Load.t) :
  let loads' := App.scheduleLoads batch trucks loads in
  Forall2 (keptOrAssigned trucks) loads loads' /\
  map Load.loadId loads' = map Load.loadId loads /\
  (forall i old new,
      nth_error loads i = Some old -> nth_error loads' i = Some new ->
      Load.status new = Load.status old \/
      (Load.status new = assigned /\
       exists truck, In truck trucks /\
                     Load.assignedTruckId new = Some (Truck.id truck))).
Proof.
  cbv zeta. pose proof (scheduleLoads_related batch trucks loads) as H.
  split; [exact H|]. split.
  - induction H as [|old new l l' Hon _ IH]; simpl; [reflexivity|].
    f_equal; [|exact IH].
    destruct Hon as [->|(t & _ & ->)]; reflexivity.
  - induction H as [|o n l l' Hon _ IH]; intros i old new Ho Hn.
    + destruct i; discriminate.
    + destruct i as [|i]; simpl in Ho, Hn.
      * injection Ho as <-. injection Hn as <-.
        destruct Hon as [->|(t & Ht & ->)]; [now left|].
        right. split; [reflexivity|]. now exists t.
      * now apply (IH i).
Qed.

(** X19. A pair whose load or whose truck is unknown changes no load, and
    a pair whose truck is unknown changes no truck: a batch made of such
    pairs leaves the loads, respectively the fleet, exactly as they
    were. *)
Theorem schedule_ignores_unknown_records (batch : list Assignment.t)
        (trucks : list Truck.t) (loads : list Load.t) :
  ((forall a, In a batch ->
      find (fun l => (Load.loadId l =? Assignment.loadId a)%string) loads
        = None \/
      find (fun t => (Truck.truckId t =? Assignment.truckId a)%string) trucks
        = None) ->
   App.scheduleLoads batch trucks loads = loads) /\
  ((forall a, In a batch ->
      find (fun t => (Truck.truckId t =? Assignment.truckId a)%string) trucks
        = None) ->
   App.scheduleTrucks batch trucks = trucks).
Proof.
  split.
  - unfold App.scheduleLoads.
    induction batch as [|a rest IH]; intros H; [reflexivity|].
    cbn [fold_left]. rewrite assignLoadStep_replaceFirst.
    assert (E : match find (fun t => (Truck.truckId t =?
                                      Assignment.truckId a)%string) trucks with
                | Some truck =>
                    replaceFirst
                      (fun l => (Load.loadId l =? Assignment.loadId a)%string)
                      (App.assignTo truck) loads
                | None => loads
                end = loads).
    { destruct (H a (or_introl eq_refl)) as [Hl|Ht].
      - destruct (find _ trucks); [|reflexivity].
        now apply replaceFirst_none.
      - now rewrite Ht. }
    rewrite E. apply IH. intros b Hb. apply H. now right.
  - unfold App.scheduleTrucks.
    induction batch as [|a rest IH]; intros H; [reflexivity|].
    cbn [fold_left]. rewrite countLoadStep_replaceFirst.
    rewrite replaceFirst_none by (apply H; now left).
    apply IH. intros b Hb. apply H. now right.
Qed.

Lemma schedule_ignores_unknown_records_witness :
  App.scheduleLoads [Assignment.mk "L-9999" "T-001";
                     Assignment.mk "L-1001" "T-999"] testTrucks testLoads
  = testLoads /\
  App.scheduleTrucks [Assignment.mk "L-1001" "T-999"] testTrucks = testTrucks.
Proof.
  split.
  - refine (proj1 (schedule_ignores_unknown_records
      [Assignment.mk "L-9999" "T-001"; Assignment.mk "L-1001" "T-999"]
      testTrucks testLoads) _).
    intros a [<-|[<-|[]]]; [left | right]; reflexivity.
  - refine (proj2 (schedule_ignores_unknown_records
      [Assignment.mk "L-1001" "T-999"] testTrucks testLoads) _).
    intros a [<-|[]]. reflexivity.
Defined.

(** ** Validation after the commit *)

Section AfterCommit.

Variable trucks : list Truck.t.







End AfterCommit.





(** * Identifiers of new loads and imported trucks *)

Lemma readNat_decimal (n : nat) :
  option_map Nat.of_uint (NilEmpty.uint_of_string (decimal n)) = Some n.
Proof.
  unfold decimal. pose proof (DecimalNat.Unsigned.of_to n) as Hn.
  destruct (Nat.to_uint n) as [| d | d | d | d | d | d | d | d | d | d] eqn:E;
    try (cbn [NilZero.string_of_uint]; rewrite NilEmpty.usu; simpl;
         now rewrite Hn).
  simpl in Hn. subst n. reflexivity.
Qed.

Lemma readNat_zeros (k : nat) (s : string) :
  option_map Nat.of_uint
    (NilEmpty.uint_of_string
       (string_of_list_ascii (repeat "0"%char k) ++ s)) =
  option_map Nat.of_uint (NilEmpty.uint_of_string s).
Proof.
  induction k as [|k IH]; [reflexivity|].
  cbn [repeat string_of_list_ascii String.append NilEmpty.uint_of_string].
  rewrite <- IH.
  destruct (NilEmpty.uint_of_string
              (string_of_list_ascii (repeat "0"%char k) ++ s)); reflexivity.
Qed.

Lemma positionalLoadId_inj (i j : nat) :
  positionalLoadId i = positionalLoadId j -> i = j.
Proof.
  unfold positionalLoadId. intros H. injection H as H.
  apply (f_equal (fun s => option_map Nat.of_uint
                             (NilEmpty.uint_of_string s))) in H.
  rewrite !readNat_decimal in H. injection H as H. lia.
Qed.

Lemma positionalTruckId_inj (i j : nat) :
  positionalTruckId i = positionalTruckId j -> i = j.
Proof.
  unfold positionalTruckId, padStart. intros H. injection H as H.
  apply (f_equal (fun s => option_map Nat.of_uint
                             (NilEmpty.uint_of_string s))) in H.
  rewrite !readNat_zeros, !readNat_decimal in H. injection H as H. lia.
Qed.

Lemma positional_NoDup {A : Type} (key : A -> string) (name : nat -> string)
      (l : list A) :
  (forall i j, name i = name j -> i = j) ->
  (forall i x, nth_error l i = Some x -> key x = name i) ->
  NoDup (map key l).
Proof.
  intros Hinj Hpos. apply NoDup_nth_error. intros i j Hi E.
  rewrite length_map in Hi. rewrite !nth_error_map in E.
  destruct (nth_error l i) as [x|] eqn:Ex.
  - destruct (nth_error l j) as [y|] eqn:Ey; [|discriminate].
    simpl in E. injection E as E.
    rewrite (Hpos i x Ex), (Hpos j y Ey) in E. now apply Hinj.
  - apply nth_error_None in Ex. lia.
Qed.

(** X21. [handleAddLoad] appends exactly one load to the list the
    updater receives and leaves that list unchanged as a prefix; the new
    load is unassigned, has no truck, carries the fields it was created
    from and the identifier made from the length of the list the callback
    closed over plus 1001.  When the two lists have the same length and
    the load at every position [i] carries the identifier made from
    [i + 1001], which is how the list starts out, the extended list has
    the same property, and therefore its [loadId]s are pairwise
    different. *)
Theorem handleAddLoad_fresh_identifier (loads prev : list Load.t)
        (loadData : App.LoadData) :
  let loads' := App.handleAddLoad loads prev loadData in
  (exists new,
      loads' = prev ++ [new] /\
      Load.loadId new = positionalLoadId (length loads) /\
      Load.status new = unassigned /\
      Load.assignedTruckId new = None /\
      Load.sizeTons new = App.sizeTons loadData /\
      Load.destination new = App.destination loadData /\
      Load.priority new = App.priority loadData) /\
  length loads' = S (length prev) /\
  firstn (length prev) loads' = prev /\
  Fairness.getUnassignedLoads loads' =
    Fairness.getUnassignedLoads prev ++ skipn (length prev) loads' /\
  (length loads = length prev -> positionalLoadIds prev ->
   positionalLoadIds loads' /\ NoDup (map Load.loadId loads')).
Proof.
  cbv zeta. unfold App.handleAddLoad.
  split; [|split; [|split; [|split]]].
  - eexists. split; [reflexivity|]. cbn. unfold positionalLoadId.
    repeat split.
  - rewrite length_app. simpl. lia.
  - rewrite firstn_app, Nat.sub_diag, firstn_all. simpl. apply app_nil_r.
  - unfold Fairness.getUnassignedLoads. rewrite filter_app.
    rewrite skipn_app, Nat.sub_diag, skipn_all. reflexivity.
  - intros Hlen Hpos.
    assert (Hpos' : positionalLoadIds
              (prev ++
               [Load.mk ("load-" ++ decimal (length loads + 1001))
                        ("L-" ++ decimal (length loads + 1001))
                        (App.sizeTons loadData) (App.destination loadData)
                        (App.origin loadData) (App.priority loadData)
                        (App.deadline loadData) unassigned None])).
    { intros i l Hi.
      destruct (Nat.lt_ge_cases i (length prev)) as [Hlt|Hge].
      - rewrite nth_error_app1 in Hi by exact Hlt. now apply Hpos.
      - rewrite nth_error_app2 in Hi by exact Hge.
        destruct (i - length prev)%nat as [|k] eqn:Ek; simpl in Hi.
        + injection Hi as <-. cbn [Load.loadId]. unfold positionalLoadId.
          replace i with (length loads) by lia. reflexivity.
        + destruct k; discriminate. }
    split; [exact Hpos'|].
    apply positional_NoDup with (name := positionalLoadId).
    + exact positionalLoadId_inj.
    + exact Hpos'.
Qed.

Lemma handleAddLoad_fresh_identifier_witness :
  let d1 := App.Build_LoadData (5 # 1) "Kingston" "JBG Kingston Depot"
                               normal "2026-01-14" in
  let d2 := App.Build_LoadData (7 # 1) "Negril" "JBG Kingston Depot"
                               high "2026-01-15" in
  let one := App.handleAddLoad [] [] d1 in
  map Load.loadId (App.handleAddLoad one one d2)
  = ["L-1001"; "L-1002"]%string /\
  positionalLoadIds (App.handleAddLoad one one d2).
Proof.
  cbv zeta. split; [vm_compute; reflexivity|].
  refine (proj1 (proj2 (proj2 (proj2 (proj2
    (handleAddLoad_fresh_identifier _ _ _)))) eq_refl _)).
  refine (proj1 (proj2 (proj2 (proj2 (proj2
    (handleAddLoad_fresh_identifier [] [] _)))) eq_refl _)).
  intros i l Hi. destruct i; discriminate.
Defined.

(** Two calls made from the same render close over the same list: the
    second load gets the identifier of the first. *)
Example handleAddLoad_stale_closure :
  let d := App.Build_LoadData (5 # 1) "Kingston" "JBG Kingston Depot"
                              normal "2026-01-14" in
  map Load.loadId (App.handleAddLoad [] (App.handleAddLoad [] [] d) d)
  = ["L-1001"; "L-1001"]%string.
Proof. reflexivity. Qed.

Lemma mapFrom_nth (next index : nat) (rows : list TruckImport.ParsedTruck)
      (j : nat) (t : Truck.t) :
  nth_error (TruckImport.mapFrom next index rows) j = Some t ->
  exists row, nth_error rows j = Some row /\
              t = TruckImport.newTruck next (index + j) row.
Proof.
  revert index j. induction rows as [|r rest IH]; intros index j H.
  - destruct j; discriminate.
  - destruct j as [|j]; simpl in H.
    + injection H as <-. exists r. now rewrite Nat.add_0_r.
    + destruct (IH (S index) j H) as (row & Hr & ->).
      exists row. split; [exact Hr|]. f_equal. lia.
Qed.

Lemma mapFrom_length (next index : nat)
      (rows : list TruckImport.ParsedTruck) :
  length (TruckImport.mapFrom next index rows) = length rows.
Proof.
  revert index. induction rows as [|r rest IH]; intros index; simpl;
    [reflexivity | now rewrite IH].
Qed.

(** X22. Importing trucks appends to the fleet the updater receives,
    which stays unchanged as a prefix, one truck per row, in order: the
    truck of row [j] has quota 3, the weekly loads, capacity, size,
    contractor and active flag of its row, and the identifier made from
    the length of the fleet the component was given plus [j + 1], padded
    to three digits.  When the two fleets have the same length and the
    truck at every position [i] carries the identifier made from [i + 1],
    the fleet after the import has the same property, and therefore its
    [truckId]s are pairwise different. *)
Theorem import_fresh_identifiers (existingTrucks prev : list Truck.t)
        (parsedData : list TruckImport.ParsedTruck) :
  let newTrucks := TruckImport.handleConfirmImport existingTrucks parsedData in
  let fleet := App.handleImportTrucks prev newTrucks in
  length newTrucks = length parsedData /\
  length fleet = (length prev + length parsedData)%nat /\
  firstn (length prev) fleet = prev /\
  skipn (length prev) fleet = newTrucks /\
  (forall j t, nth_error newTrucks j = Some t ->
     exists row, nth_error parsedData j = Some row /\
       Truck.truckId t = positionalTruckId (length existingTrucks + j) /\
       Truck.minWeeklyLoads t = 3%Z /\
       Truck.weeklyLoads t = TruckImport.weeklyLoads row /\
       Truck.capacityTons t = TruckImport.capacityTons row /\
       Truck.size t = TruckImport.size row /\
       Truck.contractorName t = TruckImport.contractorName row /\
       Truck.active t = TruckImport.active row) /\
  (length existingTrucks = length prev -> positionalTruckIds prev ->
   positionalTruckIds fleet /\ NoDup (map Truck.truckId fleet)).
Proof.
  cbv zeta.
  unfold App.handleImportTrucks, TruckImport.handleConfirmImport.
  assert (Hnew : forall j t,
             nth_error (TruckImport.mapFrom (length existingTrucks + 1) 0
                                            parsedData) j = Some t ->
             exists row, nth_error parsedData j = Some row /\
               Truck.truckId t = positionalTruckId (length existingTrucks + j)
               /\ Truck.minWeeklyLoads t = 3%Z /\
               Truck.weeklyLoads t = TruckImport.weeklyLoads row /\
               Truck.capacityTons t = TruckImport.capacityTons row /\
               Truck.size t = TruckImport.size row /\
               Truck.contractorName t = TruckImport.contractorName row /\
               Truck.active t = TruckImport.active row).
  { intros j t Hj. apply mapFrom_nth in Hj. destruct Hj as (row & Hr & ->).
    exists row. split; [exact Hr|]. split; [|repeat split].
    unfold TruckImport.newTruck, positionalTruckId. cbn [Truck.truckId].
    replace (length existingTrucks + 1 + (0 + j))%nat
      with (length existingTrucks + j + 1)%nat by lia.
    reflexivity. }
  split; [apply mapFrom_length|].
  split; [now rewrite length_app, mapFrom_length|].
  split; [rewrite firstn_app, Nat.sub_diag, firstn_all; simpl;
          apply app_nil_r|].
  split; [rewrite skipn_app, Nat.sub_diag, skipn_all; reflexivity|].
  split; [exact Hnew|].
  intros Hlen Hpos.
  assert (Hpos' : positionalTruckIds
                    (prev ++
                     TruckImport.mapFrom (length existingTrucks + 1) 0
                                         parsedData)).
  { intros i t Hi.
    destruct (Nat.lt_ge_cases i (length prev)) as [Hlt|Hge].
    - rewrite nth_error_app1 in Hi by exact Hlt. now apply Hpos.
    - rewrite nth_error_app2 in Hi by exact Hge.
      destruct (Hnew _ _ Hi) as (_ & _ & Hid & _). rewrite Hid.
      f_equal. lia. }
  split; [exact Hpos'|].
  apply positional_NoDup with (name := positionalTruckId).
  - exact positionalTruckId_inj.
  - exact Hpos'.
Qed.

Lemma seedFleet_positional (random : nat -> float) :
  positionalTruckIds (SeedFleet.generateTrucks random).
Proof.
  intros i t Hi. unfold SeedFleet.generateTrucks in Hi.
  rewrite nth_error_map in Hi.
  destruct (nth_error (seq 0 88) i) as [k|] eqn:Ek; [|discriminate].
  simpl in Hi. injection Hi as <-.
  assert (Hlt : (i < 88)%nat).
  { pose proof (proj1 (nth_error_Some (seq 0 88) i)) as H.
    rewrite Ek, length_seq in H. apply H. discriminate. }
  assert (Hk : k = i).
  { pose proof (nth_error_nth (seq 0 88) i 0%nat Ek) as Hn.
    rewrite seq_nth in Hn by (rewrite ?length_seq; exact Hlt). lia. }
  subst k. reflexivity.
Qed.

(** X23. Whatever values [Math.random] returns, the seed fleet has 88
    trucks with the pairwise different identifiers T-001 to T-088, of
    which the first 85 are active, 26 small, 44 medium and 18 large in
    that order, and all three copies of the metrics
    give the same result on it: 85 active trucks, all below quota, a
    fairness percentage and an average of zero. *)
Theorem seedFleet_shape (random : nat -> float) :
  let fleet := SeedFleet.generateTrucks random in
  length fleet = 88%nat /\
  positionalTruckIds fleet /\
  NoDup (map Truck.truckId fleet) /\
  map Truck.active fleet = repeat true 85 ++ repeat false 3 /\
  map Truck.size fleet =
    repeat small 26 ++ repeat medium 44 ++ repeat large 18 /\
  Fairness.calculateFairnessMetrics fleet =
    {| totalTrucks := 85; trucksAtQuota := 0; trucksBelowQuota := 85;
       trucksAboveQuota := 0; fairnessPercentage := 0%float;
       averageLoadsPerTruck := 0%float |} /\
  InitialTrucks.calculateFairnessMetrics fleet =
    Fairness.calculateFairnessMetrics fleet /\
  Dashboard.metrics fleet = Fairness.calculateFairnessMetrics fleet.
Proof.
  cbv zeta. split; [reflexivity|].
  split; [apply seedFleet_positional|]. split.
  - apply positional_NoDup with (name := positionalTruckId).
    + exact positionalTruckId_inj.
    + apply seedFleet_positional.
  - split; [vm_compute; reflexivity|].
    split; [vm_compute; reflexivity|].
    split; [vm_compute; reflexivity|].
    split; vm_compute; reflexivity.
Qed.

Lemma import_fresh_identifiers_witness :
  let existing := [truckWith "T-001" 18 2 true; truckWith "T-002" 10 2 true] in
  let rows := [TruckImport.Build_ParsedTruck "Lewis Carriers" medium (12 # 1)
                                             1 true] in
  map Truck.truckId
      (App.handleImportTrucks existing
         (TruckImport.handleConfirmImport existing rows))
  = ["T-001"; "T-002"; "T-003"]%string /\
  NoDup (map Truck.truckId
           (App.handleImportTrucks existing
              (TruckImport.handleConfirmImport existing rows))).
Proof.
  cbv zeta. split; [vm_compute; reflexivity|].
  refine (proj2 (proj2 (proj2 (proj2 (proj2 (proj2 (import_fresh_identifiers
    [truckWith "T-001" 18 2 true; truckWith "T-002" 10 2 true]
    [truckWith "T-001" 18 2 true; truckWith "T-002" 10 2 true]
    [TruckImport.Build_ParsedTruck "Lewis Carriers" medium (12 # 1) 1 true]
    ))))) eq_refl _)).
  intros i t Hi. destruct i as [|[|[|i]]]; simpl in Hi;
    try discriminate; injection Hi as <-; reflexivity.
Defined.

(** * Regions *)

Section RegionFacts.

Variable toLowerCase : string -> string.
Variable inheritedProperty : string -> bool.

Local Abbreviation regionOf :=
  (Regions.getRegion toLowerCase inheritedProperty).
Local Abbreviation inRegion := (regionIs toLowerCase inheritedProperty).

Lemma JamaicaRegion_eqb_eq (a b : JamaicaRegion) :
  JamaicaRegion_eqb a b = true <-> a = b.
Proof. destruct a, b; simpl; split; congruence. Qed.

Lemma JamaicaRegion_eqb_sym (a b : JamaicaRegion) :
  JamaicaRegion_eqb a b = JamaicaRegion_eqb b a.
Proof. destruct a, b; reflexivity. Qed.

Section Groups.

Context {T : Type} (destinationOf : T -> string).

Local Abbreviation stepG :=
  (Regions.groupStep toLowerCase inheritedProperty destinationOf).

Lemma groupFold_None (items : list T) : fold_left stepG items None = None.
Proof. induction items as [|x xs IH]; simpl; [reflexivity | exact IH]. Qed.

Lemma groupFold_Some (items : list T) (g0 g : Regions.Grouped) :
  fold_left stepG items (Some g0) = Some g ->
  (forall item, In item items ->
                regionOf (destinationOf item) <> InheritedValue) /\
  (forall r, g r =
     g0 r ++ filter (fun item => inRegion r (destinationOf item)) items).
Proof.
  revert g0. induction items as [|x xs IH]; intros g0 H.
  - simpl in H. injection H as <-. split; [intros ? []|].
    intros r. simpl. now rewrite app_nil_r.
  - cbn [fold_left] in H. unfold Regions.groupStep at 2 in H.
    destruct (regionOf (destinationOf x)) as [region|] eqn:Ex.
    + apply IH in H. destruct H as [Hok Hg]. split.
      * intros item [<-|Hin]; [rewrite Ex; discriminate | now apply Hok].
      * intros r. rewrite Hg. unfold Regions.push. cbn [filter].
        assert (E : inRegion r (destinationOf x) = JamaicaRegion_eqb region r)
          by (unfold regionIs; now rewrite Ex).
        rewrite E, (JamaicaRegion_eqb_sym region r).
        destruct (JamaicaRegion_eqb r region); [|reflexivity].
        now rewrite <- app_assoc.
    + rewrite groupFold_None in H. discriminate.
Qed.

Lemma groupFold_total (items : list T) (g0 : Regions.Grouped) :
  (forall item, In item items ->
                regionOf (destinationOf item) <> InheritedValue) ->
  fold_left stepG items (Some g0) <> None.
Proof.
  revert g0. induction items as [|x xs IH]; intros g0 H; [discriminate|].
  cbn [fold_left]. unfold Regions.groupStep at 2.
  destruct (regionOf (destinationOf x)) as [region|] eqn:Ex.
  - apply IH. intros item Hin. apply H. now right.
  - elim (H x (or_introl eq_refl)). exact Ex.
Qed.

Lemma regions_partition_length (items : list T) :
  (forall item, In item items ->
                regionOf (destinationOf item) <> InheritedValue) ->
  (length (filter (fun i => inRegion KingstonMetro (destinationOf i)) items)
   + length (filter (fun i => inRegion Western (destinationOf i)) items)
   + length (filter (fun i => inRegion NorthCoast (destinationOf i)) items)
   + length (filter (fun i => inRegion Central (destinationOf i)) items)
   + length (filter (fun i => inRegion Eastern (destinationOf i)) items)
   = length items)%nat.
Proof.
  induction items as [|x xs IH]; intros H; [reflexivity|].
  cbn [filter length].
  assert (Hx := H x (or_introl eq_refl)).
  assert (IH' := IH (fun item Hin => H item (or_intror Hin))).
  assert (E : forall r, inRegion r (destinationOf x) =
                        match regionOf (destinationOf x) with
                        | IsRegion r' => JamaicaRegion_eqb r' r
                        | InheritedValue => false
                        end) by reflexivity.
  rewrite !E.
  destruct (regionOf (destinationOf x)) as [[| | | |]|];
    [ | | | | | now elim Hx]; cbn [JamaicaRegion_eqb length]; lia.
Qed.

End Groups.

End RegionFacts.

(** X24. [groupByRegion] fails exactly when some item has a destination
    for which [getRegion] returns an inherited value instead of a region.
    Otherwise no item is lost or duplicated: the group of every region is
    the list of the items that [getRegion] places in that region, in
    input order, and the five groups together have as many items as the
    input. *)
Theorem groupByRegion_partitions
        (toLowerCase : string -> string) (inheritedProperty : string -> bool)
        (T : Type) (destinationOf : T -> string) (items : list T) :
  match Regions.groupByRegion toLowerCase inheritedProperty destinationOf
                              items with
  | Some g =>
      (forall item, In item items ->
         Regions.getRegion toLowerCase inheritedProperty (destinationOf item)
         <> InheritedValue) /\
      (forall r, g r =
         filter (fun item => regionIs toLowerCase inheritedProperty r
                               (destinationOf item)) items) /\
      (length (g KingstonMetro) + length (g Western) + length (g NorthCoast)
       + length (g Central) + length (g Eastern) = length items)%nat
  | None =>
      exists item, In item items /\
        Regions.getRegion toLowerCase inheritedProperty (destinationOf item)
        = InheritedValue
  end.
Proof.
  unfold Regions.groupByRegion.
  destruct (fold_left _ items (Some Regions.emptyGroups)) as [g|] eqn:E.
  - apply groupFold_Some in E. destruct E as [Hok Hg].
    split; [exact Hok|]. split; [exact Hg|].
    rewrite !Hg. now apply regions_partition_length.
  - assert (H : ~ forall item, In item items ->
                Regions.getRegion toLowerCase inheritedProperty
                                  (destinationOf item) <> InheritedValue).
    { intros Hall.
      exact (groupFold_total toLowerCase inheritedProperty destinationOf
               items Regions.emptyGroups Hall E). }
    clear E. induction items as [|x xs IH].
    + elim H. intros ? [].
    + destruct (Regions.getRegion toLowerCase inheritedProperty
                                  (destinationOf x)) eqn:Ex.
      * destruct IH as (item & Hin & Hi).
        { intros Hall. apply H. intros item [<-|Hin];
            [rewrite Ex; discriminate | now apply Hall]. }
        exists item. split; [now right | exact Hi].
      * exists x. split; [now left | exact Ex].
Qed.

Section RegionStatsFacts.

Variable toLowerCase : string -> string.
Variable inheritedProperty : string -> bool.

Local Abbreviation regionOf :=
  (Regions.getRegion toLowerCase inheritedProperty).
Local Abbreviation inRegion := (regionIs toLowerCase inheritedProperty).
Local Abbreviation stepS :=
  (Regions.statsStep toLowerCase inheritedProperty).

Lemma statsFold_None (loads : list Load.t) : fold_left stepS loads None = None.
Proof. induction loads as [|x xs IH]; simpl; [reflexivity | exact IH]. Qed.

Lemma statsFold_Some (loads : list Load.t) (st0 st : Regions.Stats) :
  fold_left stepS loads (Some st0) = Some st ->
  forall r,
    let mine := filter (fun l => inRegion r (Load.destination l)) loads in
    fst (st r) = (fst (st0 r) + length mine)%nat /\
    snd (st r) =
      (snd (st0 r) +
       length (filter (fun l => LoadStatus_eqb (Load.status l) unassigned)
                      mine))%nat.
Proof.
  revert st0. induction loads as [|x xs IH]; intros st0 H r.
  - simpl in H. injection H as <-. simpl. lia.
  - cbn [fold_left] in H. unfold Regions.statsStep at 2 in H.
    destruct (regionOf (Load.destination x)) as [region|] eqn:Ex.
    + specialize (IH _ H r). cbv zeta in IH. destruct IH as [IH1 IH2].
      cbv zeta. cbn [filter].
      assert (E : inRegion r (Load.destination x)
                  = JamaicaRegion_eqb r region).
      { unfold regionIs. rewrite Ex. apply JamaicaRegion_eqb_sym. }
      rewrite E, IH1, IH2.
      destruct (JamaicaRegion_eqb r region); cbn [fst snd filter length].
      * destruct (LoadStatus_eqb (Load.status x) unassigned);
          cbn [length]; lia.
      * lia.
    + rewrite statsFold_None in H. discriminate.
Qed.

Lemma statsFold_groupFold (loads : list Load.t) (st0 : Regions.Stats)
      (g0 : Regions.Grouped) :
  fold_left stepS loads (Some st0) = None <->
  fold_left (Regions.groupStep toLowerCase inheritedProperty Load.destination)
            loads (Some g0) = None.
Proof.
  revert st0 g0. induction loads as [|x xs IH]; intros st0 g0.
  - simpl. split; discriminate.
  - cbn [fold_left]. unfold Regions.statsStep at 2, Regions.groupStep at 2.
    destruct (regionOf (Load.destination x)).
    + apply IH.
    + rewrite statsFold_None, groupFold_None. tauto.
Qed.

End RegionStatsFacts.

(** X25. The per-region counters of the load list agree with the groups:
    [regionStats] fails exactly when [groupByRegion] fails on the same
    loads, and otherwise, for every region, its [total] is the size of
    the group of that region and its [unassigned] is the number of
    unassigned loads in that group. *)
Theorem regionStats_counts_groups
        (toLowerCase : string -> string) (inheritedProperty : string -> bool)
        (loads : list Load.t) :
  match Regions.regionStats toLowerCase inheritedProperty loads,
        Regions.groupByRegion toLowerCase inheritedProperty
                              Load.destination loads with
  | Some st, Some g =>
      forall r,
        fst (st r) = length (g r) /\
        snd (st r) =
          length (filter (fun l => LoadStatus_eqb (Load.status l) unassigned)
                         (g r))
  | None, None => True
  | _, _ => False
  end.
Proof.
  unfold Regions.regionStats, Regions.groupByRegion.
  pose proof (statsFold_groupFold toLowerCase inheritedProperty loads
                (fun _ => (0, 0)%nat) Regions.emptyGroups) as Hnone.
  destruct (fold_left (Regions.statsStep _ _) loads _) as [st|] eqn:Es;
    destruct (fold_left (Regions.groupStep _ _ _) loads _) as [g|] eqn:Eg.
  - intros r.
    pose proof (statsFold_Some toLowerCase inheritedProperty loads _ _ Es r)
      as Hs.
    pose proof (groupFold_Some toLowerCase inheritedProperty Load.destination
                  loads _ _ Eg) as [_ Hg].
    cbv zeta in Hs. rewrite Hg. simpl. exact Hs.
  - destruct Hnone as [_ H]. specialize (H eq_refl). discriminate.
  - destruct Hnone as [H _]. specialize (H eq_refl). discriminate.
  - exact I.
Qed.

Lemma tableConsistent_true : tableConsistent = true.
Proof. vm_compute. reflexivity. Qed.

(** X26. [getRegion] does not depend on letter case for the listed
    destinations: a destination that is no inherited property name and
    whose lower case is the lower case of a listed destination gets the
    region listed for it, through the table when it is spelled exactly as
    listed and through the fuzzy matching otherwise. *)
Theorem getRegion_listed_any_case
        (toLowerCase : string -> string) (inheritedProperty : string -> bool)
        (destination listed : string) (region : JamaicaRegion) :
  In (listed, region) DESTINATION_REGIONS ->
  toLowerCase destination = asciiLower destination ->
  asciiLower destination = asciiLower listed ->
  inheritedProperty destination = false ->
  Regions.getRegion toLowerCase inheritedProperty destination
  = IsRegion region.
Proof.
  intros Hin Hlow Hsame Hinh.
  pose proof tableConsistent_true as Hc. unfold tableConsistent in Hc.
  rewrite forallb_forall in Hc.
  unfold Regions.getRegion, Regions.lookup.
  destruct (find _ DESTINATION_REGIONS) as [kv|] eqn:Ef.
  - apply find_some in Ef. destruct Ef as [Hkv Hd].
    apply String.eqb_eq in Hd.
    specialize (Hc kv Hkv). apply andb_true_iff in Hc.
    destruct Hc as [_ Hc]. rewrite forallb_forall in Hc.
    specialize (Hc _ Hin). cbn [fst snd] in Hc.
    rewrite Hd, Hsame, String.eqb_refl in Hc. simpl in Hc.
    apply JamaicaRegion_eqb_eq in Hc. now rewrite Hc.
  - rewrite Hinh, Hlow, Hsame.
    specialize (Hc _ Hin). apply andb_true_iff in Hc.
    destruct Hc as [Hc _]. cbn [fst snd] in Hc.
    apply JamaicaRegion_eqb_eq in Hc. now rewrite Hc.
Qed.

Lemma getRegion_listed_any_case_witness :
  Regions.getRegion asciiLower (fun _ => false) "OCHO RIOS"
  = IsRegion NorthCoast.
Proof.
  refine (getRegion_listed_any_case asciiLower (fun _ => false)
            "OCHO RIOS" "Ocho Rios" NorthCoast _ _ _ _).
  - simpl. do 13 right. left. reflexivity.
  - reflexivity.
  - vm_compute. reflexivity.
  - reflexivity.
Defined.

(** A destination named like an inherited property makes the grouping
    fail, and the counters with it. *)
Example groupByRegion_inherited_name :
  let inherited := fun s => (s =? "constructor")%string in
  Regions.getRegion asciiLower inherited "constructor" = InheritedValue /\
  Regions.groupByRegion asciiLower inherited Load.destination
    [Load.mk "1" "L-1001" (8 # 1) "Kingston" "JBG Depot" high
             "2026-01-14" unassigned None;
     Load.mk "2" "L-1002" (8 # 1) "constructor" "JBG Depot" high
             "2026-01-14" unassigned None] = None.
Proof. split; reflexivity. Qed.

Example groupByRegion_two_regions :
  option_map
    (fun g => map (fun r => map Load.loadId (g r))
                  [KingstonMetro; Western; NorthCoast; Central; Eastern])
    (Regions.groupByRegion asciiLower (fun _ => false) Load.destination
       [Load.mk "1" "L-1001" (8 # 1) "Kingston" "JBG Depot" high
                "2026-01-14" unassigned None;
        Load.mk "2" "L-1002" (8 # 1) "negril beach" "JBG Depot" high
                "2026-01-14" unassigned None;
        Load.mk "3" "L-1003" (8 # 1) "Halfway Tree" "JBG Depot" high
                "2026-01-14" unassigned None;
        Load.mk "4" "L-1004" (8 # 1) "Somewhere" "JBG Depot" high
                "2026-01-14" unassigned None])
  = Some [["L-1001"; "L-1003"]; ["L-1002"]; []; ["L-1004"]; []]%string.
Proof. vm_compute. reflexivity. Qed.
